(** * superkit/kit: the request-lifecycle wrappers of kit.go

    A shallow embedding of [kit.go]: the per-request [Kit] value, its response
    helpers, the process-wide error handler, the [Handler] adapter and the
    [WithAuthentication] middleware, followed by the properties of the
    specification that concern them.

    Package code is a function of the world (the package variable
    [errorHandler], the response writers, the log) that also reports the
    calls it makes into the functions it was given. A response writer keeps
    the method calls it received, so that the order of effects can be
    stated. Code of the host application (handlers, probes, registered error
    handlers) is arbitrary: any function of the world. The recursion of
    [Kit.Redirect] gets an explicit budget; a run that uses it up has not
    returned.

    The environment that [IsDevelopment], [IsProduction] and [Env] read is
    a parameter of theirs. *)

From Stdlib Require Import ZArith NArith Strings.String Strings.Ascii List Strings.Byte Bool Lia.
From Stdlib Require Import Decimal DecimalString DecimalFacts DecimalPos.
From stdpp Require Import base option strings gmap.

#[local] Set Warnings "-register-all".

Local Open Scope Z_scope.
Local Open Scope string_scope.
Local Open Scope list_scope.

(** ** Go values used by the package *)

(** A non-nil Go [error]: all the package ever asks of one is its message.
    A nilable [error] result is an [option error]. *)
Record error := mkError { Error : string }.

(** Go's [[]byte(s)]: a Go string is its byte sequence. *)
Definition bytes_of (s : string) : list byte := list_byte_of_string s.

(** The values that implement the [Auth] interface: the package's own
    [DefaultAuth] and whatever the host application supplies, of which the
    package only ever calls [Check]. *)
Inductive AuthValue :=
| DefaultAuth
| HostAuth (id : nat) (authenticated : bool).

(** [func (DefaultAuth) Check() bool { return false }], and the host's. *)
Definition Check (a : AuthValue) : bool :=
  match a with
  | DefaultAuth => false
  | HostAuth _ b => b
  end.

(** An [Auth] interface value; [None] is the nil interface. *)
Definition Auth := option AuthValue.

(** ** Request contexts *)

(** Context keys: the package's [AuthKey{}] and the keys of anybody else. *)
Inductive ctxkey :=
| AuthKey
| HostKey (n : nat).

#[global] Instance ctxkey_eq_dec : EqDecision ctxkey.
Proof. solve_decision. Defined.

(** A Go [any] as far as the type assertion [.(Auth)] can tell values apart:
    nil, a value whose type implements [Auth], a value of any other type. *)
Inductive any :=
| AnyNil
| AnyAuth (a : AuthValue)
| AnyOther (n : nat).

(** A [context.Context] is the chain of its [WithValue] bindings, the
    innermost first. *)
Definition Context := list (ctxkey * any).

Definition WithValue (parent : Context) (k : ctxkey) (v : any) : Context :=
  (k, v) :: parent.

Fixpoint Value (c : Context) (k : ctxkey) : any :=
  match c with
  | [] => AnyNil
  | (k', v) :: parent => if decide (k' = k) then v else Value parent k
  end.

(** Storing an interface value in an [any]: a nil [Auth] becomes a nil [any]. *)
Definition any_of_Auth (a : Auth) : any :=
  match a with
  | Some v => AnyAuth v
  | None => AnyNil
  end.

(** The type assertion [x.(Auth)] in its two-result form. *)
Definition assert_Auth (x : any) : Auth * bool :=
  match x with
  | AnyAuth v => (Some v, true)
  | _ => (None, false)
  end.

(** ** HTTP headers *)

Definition is_lower (c : ascii) : bool :=
  (97 <=? nat_of_ascii c)%nat && (nat_of_ascii c <=? 122)%nat.

Definition is_upper (c : ascii) : bool :=
  (65 <=? nat_of_ascii c)%nat && (nat_of_ascii c <=? 90)%nat.

Definition is_digit (c : ascii) : bool :=
  (48 <=? nat_of_ascii c)%nat && (nat_of_ascii c <=? 57)%nat.

(** net/textproto's token bytes. *)
Definition validHeaderFieldByte (c : ascii) : bool :=
  is_lower c || is_upper c || is_digit c ||
  existsb (Ascii.eqb c) (list_ascii_of_string "!#$%&'*+-.^_`|~").

Fixpoint canonical (upper : bool) (s : string) : string :=
  match s with
  | EmptyString => EmptyString
  | String c rest =>
      let c' :=
        if upper && is_lower c then ascii_of_nat (nat_of_ascii c - 32)
        else if negb upper && is_upper c then ascii_of_nat (nat_of_ascii c + 32)
        else c in
      String c' (canonical (Ascii.eqb c' "-") rest)
  end.

(** [textproto.CanonicalMIMEHeaderKey]: a key made of token bytes gets an
    upper-case letter first and after each hyphen and lower-case letters
    elsewhere; any other key is left as it is. *)
Definition CanonicalMIMEHeaderKey (s : string) : string :=
  if forallb validHeaderFieldByte (list_ascii_of_string s)
  then canonical true s else s.

(** [http.Header] is a [map[string][]string]. *)
Abbreviation http_Header := (gmap string (list string)).

(** [Header.Get]: the first value under the canonical key, or [""]. *)
Definition Header_Get (h : http_Header) (key : string) : string :=
  match h !! CanonicalMIMEHeaderKey key with
  | Some (v :: _) => v
  | _ => ""
  end.

(** [Header.Set]: the canonical key now holds exactly [value]. *)
Definition Header_Set (h : http_Header) (key value : string) : http_Header :=
  <[CanonicalMIMEHeaderKey key := [value]]> h.

(** ** Requests and response writers *)

(** The parts of an [*http.Request] the package reads. *)
Record http_Request := mkRequest {
  Header : http_Header;
  URL_Path : string;
  ctx : Context
}.

(** [r.WithContext(ctx)]: a copy of [r] that carries [ctx]. *)
Definition WithContext (r : http_Request) (c : Context) : http_Request :=
  {| Header := Header r; URL_Path := URL_Path r; ctx := c |}.

(** The method calls a response writer has received. [CallWrite] keeps the
    error the writer answered with. *)
Inductive SinkCall :=
| CallWriteHeader (statusCode : Z)
| CallHeaderSet (key value : string)
| CallWrite (b : list byte) (err : option error).

(** An [http.ResponseWriter]: the header map that [Header()] hands out, the
    calls received so far (oldest first), and the implementation's answer to a
    [Write], which may depend on what it has received before. *)
Record http_ResponseWriter := mkWriter {
  HeaderMap : http_Header;
  calls : list SinkCall;
  on_write : list SinkCall -> list byte -> option error
}.

(** Whether the status line is already committed: a [WriteHeader] or a
    [Write] was received. *)
Definition wroteHeader (l : list SinkCall) : bool :=
  existsb (fun c => match c with CallHeaderSet _ _ => false | _ => true end) l.

(** The bytes the writer accepted. *)
Fixpoint Body (l : list SinkCall) : list byte :=
  match l with
  | [] => []
  | CallWrite b None :: rest => b ++ Body rest
  | _ :: rest => Body rest
  end.

(** The headers of the response. By the contract of [http.ResponseWriter],
    changing the header map after a call to [WriteHeader] or [Write] has no
    effect on the response: its headers are the header map as it stands at
    the first of these calls. For a writer that starts with the header map
    [h] and then receives the calls [l], that is [Header_at_commit h l];
    [None] while nothing is committed. *)
Fixpoint Header_at_commit (h : http_Header) (l : list SinkCall) : option http_Header :=
  match l with
  | [] => None
  | CallHeaderSet key value :: rest => Header_at_commit (Header_Set h key value) rest
  | CallWriteHeader _ :: _ => Some h
  | CallWrite _ _ :: _ => Some h
  end.

(** Response writers are shared mutable objects; they live in a store and are
    passed around by reference. *)
Definition ref := positive.

(** ** The package state *)

(** A value of type [ErrorHandlerFunc]: nil, the function literal that
    initialises [errorHandler], or a function of the host application. *)
Inductive ErrorHandlerFunc :=
| nilFunc
| defaultErrorHandler
| hostFunc (id : nat).

#[global] Instance ErrorHandlerFunc_eq_dec : EqDecision ErrorHandlerFunc.
Proof. solve_decision. Defined.

(** What a run of the package can read and change: the package variable
    [errorHandler], the response writers, and the records of the default
    [slog] logger at level Warn. *)
Record World := mkWorld {
  errorHandler : ErrorHandlerFunc;
  sinks : gmap ref http_ResponseWriter;
  warnings : list string
}.

(** [var errorHandler = func(kit *Kit, err error) { ... }] *)
Definition initial_World : World :=
  {| errorHandler := defaultErrorHandler; sinks := ∅; warnings := [] |}.

(** [type Kit struct { Response http.ResponseWriter; Request *http.Request }] *)
Record Kit := mkKit {
  Response : ref;
  Request : http_Request
}.

(** ** Runs *)

(** How a call ends: it returns, it panics, or the recursion budget of the
    model is used up before it does either. *)
Inductive outcome (A : Type) : Type :=
| Returned (a : A)
| Panicked (why : string)
| Exhausted.
Arguments Returned {A} a.
Arguments Panicked {A} why.
Arguments Exhausted {A}.

(** Code of the host application: it changes the world and ends somehow. *)
Definition host (A : Type) : Type := World -> World * outcome A.

(** The calls that the package itself makes into functions it was given. *)
Inductive Invocation :=
| InvokeHandler (kit : Kit)
| InvokeErrorHandler (f : ErrorHandlerFunc) (kit : Kit) (err : error)
| InvokeAuthFunc (w : ref) (r : http_Request)
| InvokeNext (w : ref) (r : http_Request).

(** Package code: besides changing the world it leaves the list of the
    invocations it made, in order. *)
Definition M (A : Type) : Type := World -> list Invocation * World * outcome A.

Definition ret {A} (a : A) : M A := fun st => ([], st, Returned a).

Definition bind {A B} (m : M A) (f : A -> M B) : M B :=
  fun st =>
    match m st with
    | (t1, st1, Returned a) =>
        match f a st1 with
        | (t2, st2, o) => (t1 ++ t2, st2, o)
        end
    | (t1, st1, Panicked why) => (t1, st1, Panicked why)
    | (t1, st1, Exhausted) => (t1, st1, Exhausted)
    end.

Definition panic {A} (why : string) : M A := fun st => ([], st, Panicked why).

(** Calling into a given function: the invocation is recorded, then the
    function runs. *)
Definition invoke {A} (i : Invocation) (f : host A) : M A :=
  fun st => match f st with (st', o) => ([i], st', o) end.

Declare Scope go_scope.
Delimit Scope go_scope with go.
Notation "x <- m ;; k" := (bind m (fun x => k))
  (at level 100, m at next level, right associativity) : go_scope.
Notation "m ;; k" := (bind m (fun _ => k))
  (at level 100, right associativity) : go_scope.
Local Open Scope go_scope.

(** Forgetting the invocations: package code seen as host code, for a host
    function that is written with the package's helpers. *)
Definition as_host {A} (m : M A) : host A :=
  fun st => match m st with (_, st', o) => (st', o) end.

(** ** Methods of a response writer *)

(** The world in which the writer behind [w] has become [rw]. *)
Definition set_sink (st : World) (w : ref) (rw : http_ResponseWriter) : World :=
  {| errorHandler := errorHandler st;
     sinks := <[w := rw]> (sinks st);
     warnings := warnings st |}.

(** A method call on the writer behind [w]; a reference that holds no writer
    is a nil interface value, and the call panics. *)
Definition on_sink {A} (w : ref)
    (f : http_ResponseWriter -> http_ResponseWriter * A) : M A :=
  fun st =>
    match sinks st !! w with
    | Some rw =>
        match f rw with
        | (rw', a) => ([], set_sink st w rw', Returned a)
        end
    | None => ([], st, Panicked "nil pointer dereference")
    end.

Definition received (rw : http_ResponseWriter) (c : SinkCall) : http_ResponseWriter :=
  {| HeaderMap := HeaderMap rw; calls := calls rw ++ [c]; on_write := on_write rw |}.

(** [w.WriteHeader(statusCode)] *)
Definition WriteHeader (w : ref) (statusCode : Z) : M unit :=
  on_sink w (fun rw => (received rw (CallWriteHeader statusCode), tt)).

(** [w.Header().Set(key, value)] *)
Definition Header_Set_on (w : ref) (key value : string) : M unit :=
  on_sink w (fun rw =>
    ({| HeaderMap := Header_Set (HeaderMap rw) key value;
        calls := calls rw ++ [CallHeaderSet key value];
        on_write := on_write rw |}, tt)).

(** [_, err := w.Write(b)] *)
Definition Write (w : ref) (b : list byte) : M (option error) :=
  on_sink w (fun rw =>
    let err := on_write rw (calls rw) b in
    (received rw (CallWrite b err), err)).

(** [slog.Warn(msg)] *)
Definition slog_Warn (msg : string) : M unit :=
  fun st => ([], {| errorHandler := errorHandler st;
                    sinks := sinks st;
                    warnings := warnings st ++ [msg] |}, Returned tt).

Definition StatusSeeOther : Z := 303.
Definition StatusInternalServerError : Z := 500.

(** ** encoding/json, as far as [Kit.JSON] needs it *)

(** The Go values handed to the encoder, by how it writes them: nil, booleans,
    integers, strings, slices, and structs or maps (the members in the order
    the encoder emits them: declaration order for a struct, sorted keys for a
    map). [Unsupported] stands for a value the encoder refuses, such as a
    channel or a function. Floating-point numbers are not among them: what
    is stated of all values is stated of the values of this type. *)
Inductive value :=
| Null
| Bool (b : bool)
| Int (n : Z)
| Str (s : string)
| Array (elems : list value)
| Object (members : list (string * value))
| Unsupported (typ : string).

(** The double quote, by its code. *)
Definition dquote : ascii := "034".

Definition hex_digit (n : nat) : ascii :=
  if (n <? 10)%nat then ascii_of_nat (48 + n) else ascii_of_nat (87 + n).

(** One ASCII byte of a string literal, as the encoder writes it; it escapes
    HTML characters. [escape] applies it to bytes below 0x80 only. *)
Definition escape_byte (c : ascii) : string :=
  let n := nat_of_ascii c in
  if Ascii.eqb c dquote then String "\" (String dquote "")
  else if Ascii.eqb c "\" then "\\"
  else if (n =? 8)%nat then "\b"
  else if (n =? 12)%nat then "\f"
  else if (n =? 10)%nat then "\n"
  else if (n =? 13)%nat then "\r"
  else if (n =? 9)%nat then "\t"
  else if (n <? 32)%nat || Ascii.eqb c "<" || Ascii.eqb c ">" || Ascii.eqb c "&"
  then "\u00" +:+ String (hex_digit (n / 16)) (String (hex_digit (n mod 16)) "")
  else String c "".

(** *** UTF-8, as [utf8.DecodeRuneInString] reads it *)

Definition code (c : ascii) : N := N_of_ascii c.

Definition byte_in (lo hi : N) (c : ascii) : bool :=
  (lo <=? code c)%N && (code c <=? hi)%N.

(** The byte sequences that encode one character: a lead byte that fixes
    the length and the range of the second byte, and continuation bytes.
    Over-long forms, surrogates and values above U+10FFFF are excluded. *)
Definition continuation (c : ascii) : bool := byte_in 128 191 c.

Definition two_bytes (c0 c1 : ascii) : bool :=
  byte_in 194 223 c0 && continuation c1.

Definition three_bytes (c0 c1 c2 : ascii) : bool :=
  ((code c0 =? 224)%N && byte_in 160 191 c1
   || byte_in 225 236 c0 && continuation c1
   || (code c0 =? 237)%N && byte_in 128 159 c1
   || byte_in 238 239 c0 && continuation c1)
  && continuation c2.

Definition four_bytes (c0 c1 c2 c3 : ascii) : bool :=
  ((code c0 =? 240)%N && byte_in 144 191 c1
   || byte_in 241 243 c0 && continuation c1
   || (code c0 =? 244)%N && byte_in 128 143 c1)
  && continuation c2 && continuation c3.

(** A string cut into characters: each valid sequence, and each byte that
    begins none (for which the decoder reports [RuneError] of size 1). *)
Inductive rune :=
| Valid (bytes : string)
| Broken (b : ascii).

Definition runes_step (rec : string -> list rune) (c0 : ascii) (r0 : string) : list rune :=
  if (code c0 <? 128)%N then Valid (String c0 "") :: rec r0
  else
    match r0 with
    | String c1 r1 =>
        if two_bytes c0 c1 then Valid (String c0 (String c1 "")) :: rec r1
        else
          match r1 with
          | String c2 r2 =>
              if three_bytes c0 c1 c2
              then Valid (String c0 (String c1 (String c2 ""))) :: rec r2
              else
                match r2 with
                | String c3 r3 =>
                    if four_bytes c0 c1 c2 c3
                    then Valid (String c0 (String c1 (String c2 (String c3 "")))) :: rec r3
                    else Broken c0 :: rec r0
                | EmptyString => Broken c0 :: rec r0
                end
          | EmptyString => Broken c0 :: rec r0
          end
    | EmptyString => Broken c0 :: rec r0
    end.

Fixpoint runes (s : string) : list rune :=
  match s with
  | EmptyString => []
  | String c0 r0 => runes_step runes c0 r0
  end.

(** U+FFFD, U+2028 and U+2029 in UTF-8. *)
Definition replacement : string := String "239" (String "191" (String "189" "")).
Definition line_separator : string := String "226" (String "128" (String "168" "")).
Definition paragraph_separator : string := String "226" (String "128" (String "169" "")).

(** One character of a string literal: a byte of invalid UTF-8 is written as
    the escape of U+FFFD, the line and paragraph separators as escapes, any
    other character beyond ASCII as it is. *)
Definition escape_rune (ru : rune) : string :=
  match ru with
  | Broken _ => String "\" "ufffd"
  | Valid (String c EmptyString) => escape_byte c
  | Valid b =>
      if String.eqb b line_separator then String "\" "u2028"
      else if String.eqb b paragraph_separator then String "\" "u2029"
      else b
  end.

Definition coerce_rune (ru : rune) : string :=
  match ru with
  | Broken _ => replacement
  | Valid b => b
  end.

Fixpoint concat_strings (l : list string) : string :=
  match l with
  | [] => ""
  | x :: rest => x +:+ concat_strings rest
  end.

(** The inside of a string literal. *)
Definition escape (s : string) : string := concat_strings (map escape_rune (runes s)).
(** The string with each byte of invalid UTF-8 replaced by U+FFFD: what a
    string is once it has been through the encoder. *)
Definition to_valid_utf8 (s : string) : string := concat_strings (map coerce_rune (runes s)).
Definition valid_utf8 (s : string) : bool :=
  forallb (fun ru => match ru with Valid _ => true | Broken _ => false end) (runes s).


Definition quote (s : string) : string :=
  String dquote (escape s +:+ String dquote "").

Definition string_of_Z (n : Z) : string := NilZero.string_of_int (Z.to_int n).

(** The encodings of the members of a list, separated by commas and closed
    by [close]; [None] when a member has no encoding. *)
Definition joined {A} (enc : A -> option string) (close : string)
    : list A -> bool -> option string :=
  fix go (l : list A) (first : bool) : option string :=
    match l with
    | [] => Some close
    | x :: rest =>
        match enc x, go rest false with
        | Some a, Some b => Some ((if first then "" else ",") +:+ a +:+ b)
        | _, _ => None
        end
    end.

(** The compact encoding of a value, or [None] when some part of it is
    unsupported. *)
Fixpoint marshal (v : value) : option string :=
  match v with
  | Null => Some "null"
  | Bool true => Some "true"
  | Bool false => Some "false"
  | Int n => Some (string_of_Z n)
  | Str s => Some (quote s)
  | Array elems =>
      match joined marshal "]" elems true with
      | Some body => Some (String "[" body)
      | None => None
      end
  | Object members =>
      match joined (fun m : string * value =>
                      match marshal (snd m) with
                      | Some a => Some (quote (fst m) +:+ String ":" a)
                      | None => None
                      end) "}" members true with
      | Some body => Some (String "{" body)
      | None => None
      end
  | Unsupported _ => None
  end.

Fixpoint unsupported_type (v : value) : string :=
  match v with
  | Unsupported typ => typ
  | Array elems =>
      (fix go (l : list value) : string :=
         match l with
         | [] => ""
         | x :: rest =>
             match marshal x with
             | Some _ => go rest
             | None => unsupported_type x
             end
         end) elems
  | Object members =>
      (fix go (l : list (string * value)) : string :=
         match l with
         | [] => ""
         | (_, x) :: rest =>
             match marshal x with
             | Some _ => go rest
             | None => unsupported_type x
             end
         end) members
  | _ => ""
  end.

(** *** Decoding, for reading a body back *)

Definition is_space (c : ascii) : bool :=
  Ascii.eqb c " " || (nat_of_ascii c =? 9)%nat ||
  (nat_of_ascii c =? 10)%nat || (nat_of_ascii c =? 13)%nat.

Fixpoint skip_space (s : string) : string :=
  match s with
  | String c rest => if is_space c then skip_space rest else s
  | EmptyString => s
  end.

Fixpoint expect (lit s : string) : option string :=
  match lit, s with
  | EmptyString, _ => Some s
  | String a lit', String b s' => if Ascii.eqb a b then expect lit' s' else None
  | String _ _, EmptyString => None
  end.

Definition hex_value (c : ascii) : option nat :=
  let n := nat_of_ascii c in
  if is_digit c then Some (n - 48)%nat
  else if (97 <=? n)%nat && (n <=? 102)%nat then Some (n - 87)%nat
  else if (65 <=? n)%nat && (n <=? 70)%nat then Some (n - 55)%nat
  else None.

Definition prepend (b : string) (r : option (string * string)) : option (string * string) :=
  match r with
  | Some (t, rest) => Some (b +:+ t, rest)
  | None => None
  end.

Definition hex4 (a b c d : ascii) : option N :=
  match hex_value a, hex_value b, hex_value c, hex_value d with
  | Some x3, Some x2, Some x1, Some x0 =>
      Some (4096 * N.of_nat x3 + 256 * N.of_nat x2 + 16 * N.of_nat x1 + N.of_nat x0)%N
  | _, _, _, _ => None
  end.

Definition byte_of (n : N) : ascii := ascii_of_N n.

(** [utf8.EncodeRune]. *)
Definition utf8_encode (n : N) : string :=
  if (n <? 128)%N then String (byte_of n) ""
  else if (n <? 2048)%N then
    String (byte_of (192 + n / 64)) (String (byte_of (128 + n mod 64)) "")
  else if (55296 <=? n)%N && (n <? 57344)%N || (1114111 <? n)%N then replacement
  else if (n <? 65536)%N then
    String (byte_of (224 + n / 4096))
      (String (byte_of (128 + (n / 64) mod 64)) (String (byte_of (128 + n mod 64)) ""))
  else
    String (byte_of (240 + n / 262144))
      (String (byte_of (128 + (n / 4096) mod 64))
         (String (byte_of (128 + (n / 64) mod 64)) (String (byte_of (128 + n mod 64)) ""))).

Definition is_surrogate (n : N) : bool := (55296 <=? n)%N && (n <? 57344)%N.

(** [utf16.DecodeRune]: a high and a low surrogate make one code point. *)
Definition surrogate_pair (hi lo : N) : option N :=
  if (55296 <=? hi)%N && (hi <? 56320)%N && (56320 <=? lo)%N && (lo <? 57344)%N
  then Some ((hi - 55296) * 1024 + (lo - 56320) + 65536)%N
  else None.

(** The text of a string literal after its opening quote, as far as the
    closing quote, and what follows. Escapes are decoded, two escapes of a
    surrogate pair into one character and a lone surrogate into U+FFFD;
    control characters are refused; bytes of invalid UTF-8 are replaced by
    U+FFFD. *)
Definition read_string_step (rec : string -> option (string * string))
    (c0 : ascii) (r0 : string) : option (string * string) :=
  if Ascii.eqb c0 dquote then Some ("", r0)
  else if Ascii.eqb c0 "\" then
    match r0 with
    | String e r1 =>
        if Ascii.eqb e "u" then
          match r1 with
          | String x1 (String x2 (String x3 (String x4 r5))) =>
              match hex4 x1 x2 x3 x4 with
              | Some n =>
                  if is_surrogate n then
                    match r5 with
                    | String b (String u (String y1 (String y2 (String y3 (String y4 r11))))) =>
                        match (if Ascii.eqb b "\" && Ascii.eqb u "u"
                               then hex4 y1 y2 y3 y4 else None) with
                        | Some m =>
                            match surrogate_pair n m with
                            | Some p => prepend (utf8_encode p) (rec r11)
                            | None => prepend replacement (rec r5)
                            end
                        | None => prepend replacement (rec r5)
                        end
                    | _ => prepend replacement (rec r5)
                    end
                  else prepend (utf8_encode n) (rec r5)
              | None => None
              end
          | _ => None
          end
        else if Ascii.eqb e "n" then prepend (String "010" "") (rec r1)
        else if Ascii.eqb e "r" then prepend (String "013" "") (rec r1)
        else if Ascii.eqb e "t" then prepend (String "009" "") (rec r1)
        else if Ascii.eqb e "b" then prepend (String "008" "") (rec r1)
        else if Ascii.eqb e "f" then prepend (String "012" "") (rec r1)
        else if Ascii.eqb e dquote || Ascii.eqb e "\" || Ascii.eqb e "/"
        then prepend (String e "") (rec r1)
        else None
    | EmptyString => None
    end
  else if (code c0 <? 32)%N then None
  else if (code c0 <? 128)%N then prepend (String c0 "") (rec r0)
  else
    match r0 with
    | String c1 r1 =>
        if two_bytes c0 c1 then prepend (String c0 (String c1 "")) (rec r1)
        else
          match r1 with
          | String c2 r2 =>
              if three_bytes c0 c1 c2
              then prepend (String c0 (String c1 (String c2 ""))) (rec r2)
              else
                match r2 with
                | String c3 r3 =>
                    if four_bytes c0 c1 c2 c3
                    then prepend (String c0 (String c1 (String c2 (String c3 "")))) (rec r3)
                    else prepend replacement (rec r0)
                | EmptyString => prepend replacement (rec r0)
                end
          | EmptyString => prepend replacement (rec r0)
          end
    | EmptyString => prepend replacement (rec r0)
    end.

Fixpoint read_string (s : string) : option (string * string) :=
  match s with
  | EmptyString => None
  | String c0 r0 => read_string_step read_string c0 r0
  end.

Fixpoint span_digits (s : string) : string * string :=
  match s with
  | String c rest =>
      if is_digit c then
        match span_digits rest with (d, r) => (String c d, r) end
      else ("", s)
  | EmptyString => ("", s)
  end.

(** An integer literal. A fraction or an exponent is left unread, so a text
    with one is refused by [read_value]: the reader covers the texts that
    [marshal] writes, in which every number is an integer. *)
Definition read_int (s : string) : option (Z * string) :=
  let (neg, s') :=
    match s with
    | String c rest => if Ascii.eqb c "-" then (true, rest) else (false, s)
    | EmptyString => (false, s)
    end in
  match span_digits s' with
  | (EmptyString, _) => None
  | (String c more as d, r) =>
      if Ascii.eqb c "0" && negb (String.eqb more "") then None
      else
        match NilZero.uint_of_string d with
        | Some u => Some (if neg then - Z.of_uint u else Z.of_uint u, r)
        | None => None
        end
  end.

Definition tagged {A B} (f : A -> B) (r : option (A * string)) : option (B * string) :=
  match r with
  | Some (x, rest) => Some (f x, rest)
  | None => None
  end.

(** The value at the head of a JSON text and what follows it, by the
    decoder's grammar with integers for numbers; the members of an object
    are kept in the order of the text. *)
Fixpoint read_value (fuel : nat) (s : string) : option (value * string) :=
  match fuel with
  | O => None
  | S fuel' =>
      match skip_space s with
      | EmptyString => None
      | String c rest as t =>
          if Ascii.eqb c "n" then option_map (pair Null) (expect "null" t)
          else if Ascii.eqb c "t" then option_map (pair (Bool true)) (expect "true" t)
          else if Ascii.eqb c "f" then option_map (pair (Bool false)) (expect "false" t)
          else if Ascii.eqb c dquote then tagged Str (read_string rest)
          else if Ascii.eqb c "[" then
            match skip_space rest with
            | EmptyString => None
            | String c' r as t' =>
                if Ascii.eqb c' "]" then Some (Array [], r)
                else tagged Array (read_elems fuel' t')
            end
          else if Ascii.eqb c "{" then
            match skip_space rest with
            | EmptyString => None
            | String c' r as t' =>
                if Ascii.eqb c' "}" then Some (Object [], r)
                else tagged Object (read_members fuel' t')
            end
          else tagged Int (read_int t)
      end
  end
with read_elems (fuel : nat) (s : string) : option (list value * string) :=
  match fuel with
  | O => None
  | S fuel' =>
      match read_value fuel' s with
      | Some (x, r) =>
          match skip_space r with
          | EmptyString => None
          | String c r' =>
              if Ascii.eqb c "]" then Some ([x], r')
              else if Ascii.eqb c "," then tagged (cons x) (read_elems fuel' r')
              else None
          end
      | None => None
      end
  end
with read_members (fuel : nat) (s : string) : option (list (string * value) * string) :=
  match fuel with
  | O => None
  | S fuel' =>
      match skip_space s with
      | EmptyString => None
      | String q rest =>
          if Ascii.eqb q dquote then
            match read_string rest with
            | Some (k, r) =>
                match skip_space r with
                | EmptyString => None
                | String c r1 =>
                    if Ascii.eqb c ":" then
                      match read_value fuel' r1 with
                      | Some (x, r2) =>
                          match skip_space r2 with
                          | EmptyString => None
                          | String c' r3 =>
                              if Ascii.eqb c' "}" then Some ([(k, x)], r3)
                              else if Ascii.eqb c' "," then
                                tagged (cons (k, x)) (read_members fuel' r3)
                              else None
                          end
                      | None => None
                      end
                    else None
                end
            | None => None
            end
          else None
      end
  end.

(** One JSON text, with nothing but white space after it. *)
Definition unmarshal (b : list byte) : option value :=
  let s := string_of_list_byte b in
  match read_value (2 * String.length s + 2) s with
  | Some (v, r) => if String.eqb (skip_space r) "" then Some v else None
  | None => None
  end.

(** *** Notions for reading an encoding back *)

(** Induction on values that reaches the members of slices and structs. *)
Section value_induction.
Variable P : value -> Prop.
Hypothesis HNull : P Null.
Hypothesis HBool : forall b, P (Bool b).
Hypothesis HInt : forall n, P (Int n).
Hypothesis HStr : forall s, P (Str s).
Hypothesis HArray : forall l, List.Forall P l -> P (Array l).
Hypothesis HObject : forall l, List.Forall (fun kv => P (snd kv)) l -> P (Object l).
Hypothesis HUnsupported : forall t, P (Unsupported t).

Fixpoint value_ind_nested (v : value) : P v :=
  match v with
  | Null => HNull
  | Bool b => HBool b
  | Int n => HInt n
  | Str s => HStr s
  | Array l =>
      HArray l ((fix go (l : list value) : List.Forall P l :=
                   match l with
                   | [] => @List.Forall_nil _ P
                   | x :: rest => @List.Forall_cons _ P x rest (value_ind_nested x) (go rest)
                   end) l)
  | Object l =>
      HObject l ((fix go (l : list (string * value)) : List.Forall (fun kv => P (snd kv)) l :=
                    match l with
                    | [] => @List.Forall_nil _ (fun kv => P (snd kv))
                    | kv :: rest =>
                        @List.Forall_cons _ (fun kv => P (snd kv)) kv rest (value_ind_nested (snd kv)) (go rest)
                    end) l)
  | Unsupported t => HUnsupported t
  end.
End value_induction.


(** The reader's budget for a value: one step per value and per member. *)
Fixpoint value_size (v : value) : nat :=
  match v with
  | Array elems => S (list_sum (map (fun x => S (value_size x)) elems))
  | Object members => S (list_sum (map (fun m => S (value_size (snd m))) members))
  | _ => 1
  end.

(** What may follow a value in a text: anything but a digit, which would
    run into a number. *)
Definition delimited (rest : string) : Prop :=
  match rest with
  | String c _ => is_digit c = false
  | EmptyString => True
  end.

(** The bytes an encoding can begin with. *)
Definition value_start (c : ascii) : bool :=
  Ascii.eqb c "n" || Ascii.eqb c "t" || Ascii.eqb c "f" || Ascii.eqb c dquote
  || Ascii.eqb c "[" || Ascii.eqb c "{" || Ascii.eqb c "-" || is_digit c.

(** A value once it has been through the encoder: its strings and member
    names with U+FFFD for each byte of invalid UTF-8. *)
Fixpoint coerce_value (v : value) : value :=
  match v with
  | Str s => Str (to_valid_utf8 s)
  | Array elems => Array (map coerce_value elems)
  | Object members =>
      Object (map (fun m : string * value => (to_valid_utf8 (fst m), coerce_value (snd m)))
                  members)
  | _ => v
  end.

(** All strings and member names of the value are valid UTF-8. *)
Fixpoint valid_value (v : value) : bool :=
  match v with
  | Str s => valid_utf8 s
  | Array elems => forallb valid_value elems
  | Object members =>
      forallb (fun m : string * value => valid_utf8 (fst m) && valid_value (snd m)) members
  | _ => true
  end.

(** The reader gives a value back from its encoding, up to invalid UTF-8,
    whatever delimited text follows, on any budget that covers the value. *)
Definition reads_back (v : value) : Prop :=
  forall s, marshal v = Some s ->
  forall fuel rest, (value_size v <= fuel)%nat -> delimited rest ->
    read_value fuel (s +:+ rest) = Some (coerce_value v, rest).

(** The budget of a value is covered by twice the length of its encoding. *)
Definition fits (v : value) : Prop :=
  forall s, marshal v = Some s -> (value_size v + 1 <= 2 * String.length s)%nat.

(** [json.NewEncoder(w).Encode(v)]: the value is encoded in full first; on
    success the encoding and a newline go to the writer in one [Write]. *)
Definition Encode (w : ref) (v : value) : M (option error) :=
  match marshal v with
  | Some s => Write w (bytes_of (s +:+ String (ascii_of_nat 10) ""))
  | None => ret (Some (mkError ("json: unsupported type: " +:+ unsupported_type v)))
  end.

(** ** The methods of [Kit] *)

(** A [templ.Component], by its [Render(ctx, w)]: code of the host
    application that is given a context and a writer. *)
Definition templ_Component : Type := Context -> ref -> host (option error).

Module Kit.

(** [func (kit *Kit) Auth() Auth] *)
Definition Auth (kit : Kit) : M Auth :=
  match assert_Auth (Value (ctx (Request kit)) AuthKey) with
  | (value, true) => ret value
  | (_, false) =>
      slog_Warn "kit authentication not set" ;;
      ret (Some DefaultAuth)
  end.

(** [func (kit *Kit) Redirect(status int, url string) error]. The second
    [return] calls the method itself; [fuel] bounds the depth of that
    recursion. *)
Fixpoint Redirect (fuel : nat) (kit : Kit) (status : Z) (url : string)
    : M (option error) :=
  match fuel with
  | O => fun st => ([], st, Exhausted)
  | S fuel' =>
      if (0 <? String.length (Header_Get (Header (Request kit)) "HX-Request"))%nat
      then
        Header_Set_on (Response kit) "HX-Redirect" url ;;
        WriteHeader (Response kit) StatusSeeOther ;;
        ret None
      else Redirect fuel' kit status url
  end.

(** [func (kit *Kit) JSON(status int, v any) error] *)
Definition JSON (kit : Kit) (status : Z) (v : value) : M (option error) :=
  WriteHeader (Response kit) status ;;
  Header_Set_on (Response kit) "Content-Type" "application/json" ;;
  Encode (Response kit) v.

(** [func (kit *Kit) Text(status int, msg string) error] *)
Definition Text (kit : Kit) (status : Z) (msg : string) : M (option error) :=
  WriteHeader (Response kit) status ;;
  Header_Set_on (Response kit) "Content-Type" "text/plain" ;;
  err <- Write (Response kit) (bytes_of msg) ;;
  ret err.

(** [func (kit *Kit) Bytes(status int, b []byte) error] *)
Definition Bytes (kit : Kit) (status : Z) (b : list byte) : M (option error) :=
  WriteHeader (Response kit) status ;;
  Header_Set_on (Response kit) "Content-Type" "text/plain" ;;
  err <- Write (Response kit) b ;;
  ret err.

(** [func (kit *Kit) Render(c templ.Component) error]: the component runs on
    the request's context and the kit's writer, and its result is returned.
    [Invocation] lists the calls into the functions handed to [Handler] and
    [WithAuthentication]; the component is neither, and the list stays
    empty. *)
Definition Render (kit : Kit) (c : templ_Component) : M (option error) :=
  fun st =>
    match c (ctx (Request kit)) (Response kit) st with
    | (st', o) => ([], st', o)
    end.

End Kit.

(** [func UseErrorHandler(h ErrorHandlerFunc) { errorHandler = h }] *)
Definition UseErrorHandler (h : ErrorHandlerFunc) : M unit :=
  fun st => ([], {| errorHandler := h;
                    sinks := sinks st;
                    warnings := warnings st |}, Returned tt).

(** [type HandlerFunc func(kit *Kit) error] *)
Definition HandlerFunc : Type := Kit -> host (option error).

(** [http.Handler], by its [ServeHTTP(w, r)]. *)
Definition http_Handler : Type := ref -> http_Request -> host unit.

(** [type AuthenticationConfig struct { AuthFunc ...; RedirectURL string }] *)
Record AuthenticationConfig := mkConfig {
  AuthFunc : ref -> http_Request -> host (Auth * option error);
  RedirectURL : string
}.

Section Package.

(** The functions of the host application that can be registered as error
    handler, by the identifier [hostFunc] carries. *)
Variable hostErrorHandler : nat -> Kit -> error -> host unit.

(** A call [f(kit, err)] of a value of type [ErrorHandlerFunc]. The function
    literal of the package calls [kit.Text] and drops its result. *)
Definition call_ErrorHandlerFunc (f : ErrorHandlerFunc) (kit : Kit) (err : error)
    : M unit :=
  match f with
  | nilFunc => panic "nil pointer dereference"
  | defaultErrorHandler =>
      invoke (InvokeErrorHandler f kit err)
        (as_host (Kit.Text kit StatusInternalServerError (Error err) ;; ret tt))
  | hostFunc id =>
      invoke (InvokeErrorHandler f kit err) (hostErrorHandler id kit err)
  end.

(** Reading the package variable [errorHandler]. *)
Definition get_errorHandler : M ErrorHandlerFunc :=
  fun st => ([], st, Returned (errorHandler st)).

(** [func Handler(h HandlerFunc) http.HandlerFunc], applied to [(w, r)]. *)
Definition Handler (h : HandlerFunc) (w : ref) (r : http_Request) : M unit :=
  let kit := {| Response := w; Request := r |} in
  err <- invoke (InvokeHandler kit) (h kit) ;;
  match err with
  | Some err =>
      f <- get_errorHandler ;;
      if decide (f <> nilFunc) then call_ErrorHandlerFunc f kit err
      else
        Kit.Text kit StatusInternalServerError (Error err) ;;
        ret tt
  | None => ret tt
  end.

(** [func WithAuthentication(config AuthenticationConfig, strict bool)
    func(http.Handler) http.Handler], applied to [next] and then to [(w, r)].
    [fuel] is handed to [Kit.Redirect]. *)
Definition WithAuthentication (fuel : nat) (config : AuthenticationConfig)
    (strict : bool) (next : http_Handler) (w : ref) (r : http_Request) : M unit :=
  let kit := {| Response := w; Request := r |} in
  res <- invoke (InvokeAuthFunc w r) (AuthFunc config w r) ;;
  let auth := fst res in
  match snd res with
  | Some err =>
      f <- get_errorHandler ;;
      call_ErrorHandlerFunc f kit err
  | None =>
      redirect <-
        (if strict then
           match auth with
           | Some a =>
               ret (negb (Check a) && negb (String.eqb (URL_Path r) (RedirectURL config)))
           | None => panic "nil pointer dereference"
           end
         else ret false) ;;
      if redirect : bool then
        Kit.Redirect fuel kit StatusSeeOther (RedirectURL config) ;;
        ret tt
      else
        let ctx' := WithValue (ctx r) AuthKey (any_of_Auth auth) in
        invoke (InvokeNext w (WithContext r ctx')) (next w (WithContext r ctx'))
  end.

End Package.

(** A handler of the package put where the host needs an [http.Handler]:
    seen from outside, the calls it makes are its own affair. *)
Definition served (m : ref -> http_Request -> M unit) : http_Handler :=
  fun w r => as_host (m w r).

(** ** The environment *)

(** [os.Getenv(key)] on the environment of the process: a variable that is
    not set reads as the empty string. *)
Definition Getenv (environ : gmap string string) (key : string) : string :=
  default "" (environ !! key).

(** [func IsDevelopment() bool] *)
Definition IsDevelopment (environ : gmap string string) : bool :=
  String.eqb (Getenv environ "APP_ENV") "development".

(** [func IsProduction() bool] *)
Definition IsProduction (environ : gmap string string) : bool :=
  String.eqb (Getenv environ "APP_ENV") "production".

(** [func Env() string] *)
Definition Env (environ : gmap string string) : string :=
  Getenv environ "APP_ENV".

(** ** Concrete requests, writers and host functions

    The inputs on which the properties below are exercised. *)

(** A writer like [httptest.ResponseRecorder]: nothing received yet, and every
    [Write] is accepted. *)
Definition recorder : http_ResponseWriter :=
  {| HeaderMap := ∅; calls := []; on_write := fun _ _ => None |}.

(** A process that has not touched [errorHandler], serving one request whose
    writer is behind reference 1. *)
Definition serving : World :=
  {| errorHandler := defaultErrorHandler;
     sinks := {[ 1%positive := recorder ]};
     warnings := [] |}.

(** [GET /dashboard] from a browser, and the same from an HTMX page. *)
Definition dashboard : http_Request :=
  {| Header := ∅; URL_Path := "/dashboard"; ctx := [] |}.

Definition dashboard_htmx : http_Request :=
  {| Header := {[ "Hx-Request" := ["true"] ]}; URL_Path := "/dashboard"; ctx := [] |}.

Definition login : http_Request :=
  {| Header := ∅; URL_Path := "/login"; ctx := [] |}.

(** A request whose context holds a value of some other type under
    [AuthKey{}]. *)
Definition mistyped : http_Request :=
  {| Header := ∅; URL_Path := "/dashboard"; ctx := [(AuthKey, AnyOther 7)] |}.

Definition boom : error := mkError "boom".

(** Handlers: one that fails without writing, one that answers. *)
Definition failing : HandlerFunc := fun _ st => (st, Returned (Some boom)).

Definition greeting : HandlerFunc :=
  fun kit => as_host (Kit.Text kit 200 "hello").

(** Host error handlers: number 0 answers 502 with a fixed text. *)
Definition hostHandlers : nat -> Kit -> error -> host unit :=
  fun _ kit _ => as_host (Kit.Text kit 502 "bad gateway" ;; ret tt).

(** Host error handlers that differ by number: number [id] answers with
    status [502 + id]. *)
Definition gateways : nat -> Kit -> error -> host unit :=
  fun id kit _ => as_host (Kit.Text kit (502 + Z.of_nat id) "upstream" ;; ret tt).

(** A process in which the host has registered its error handler number 1. *)
Definition hosted : World :=
  {| errorHandler := hostFunc 1;
     sinks := {[ 1%positive := recorder ]};
     warnings := [] |}.

(** Authentication probes: a guest, a signed-in user, and a failing probe. *)
Definition guest : Auth := Some (HostAuth 1 false).
Definition member : Auth := Some (HostAuth 2 true).

Definition probe (a : Auth) : ref -> http_Request -> host (Auth * option error) :=
  fun _ _ st => (st, Returned (a, None)).

Definition broken_probe : ref -> http_Request -> host (Auth * option error) :=
  fun _ _ st => (st, Returned (None, Some boom)).

Definition to_login (p : ref -> http_Request -> host (Auth * option error))
    : AuthenticationConfig :=
  {| AuthFunc := p; RedirectURL := "/login" |}.

(** A wrapped handler that asks the accessor who is calling and answers with
    the verdict. *)
Definition whoami : http_Handler :=
  fun w r =>
    as_host (
      a <- Kit.Auth {| Response := w; Request := r |} ;;
      match a with
      | Some v =>
          Kit.Text {| Response := w; Request := r |} 200
            (if Check v then "member" else "guest") ;;
          ret tt
      | None => panic "nil pointer dereference"
      end).

(** A handler that starts an answer and then fails. *)
Definition half_done : HandlerFunc :=
  fun kit => as_host (Kit.Text kit 200 "partial" ;; ret (Some boom)).

(** A handler that panics. *)
Definition crashing : HandlerFunc := fun _ st => (st, Panicked "index out of range").

(** A probe that panics. *)
Definition crashing_probe : ref -> http_Request -> host (Auth * option error) :=
  fun _ _ st => (st, Panicked "index out of range").

(** A writer whose connection is gone: every [Write] is refused. *)
Definition closed : error := mkError "write: broken pipe".

Definition hung_up : http_ResponseWriter :=
  {| HeaderMap := ∅; calls := []; on_write := fun _ _ => Some closed |}.

Definition serving_hung_up : World :=
  {| errorHandler := defaultErrorHandler;
     sinks := {[ 1%positive := hung_up ]};
     warnings := [] |}.

(** A component that writes the verdict of the accessor key it finds in its
    context, and one that fails before writing. *)
Definition badge : templ_Component :=
  fun c w =>
    as_host (
      match Value c AuthKey with
      | AnyAuth v => Write w (bytes_of (if Check v then "<b>member</b>" else "<b>guest</b>"))
      | _ => Write w (bytes_of "<b>nobody</b>")
      end).

Definition broken_component : templ_Component :=
  fun _ _ st => (st, Returned (Some boom)).

(** The number of status writes among the calls a writer received. *)
Definition status_writes (l : list SinkCall) : nat :=
  length (List.filter (fun c => match c with CallWriteHeader _ => true | _ => false end) l).

(** The error-handler invocations among the calls the package made. *)
Definition errorHandler_calls (t : list Invocation)
    : list (ErrorHandlerFunc * Kit * error) :=
  omap (fun i =>
          match i with
          | InvokeErrorHandler f kit err => Some (f, kit, err)
          | _ => None
          end) t.

(** The requests handed on to the wrapped handler. *)
Definition next_calls (t : list Invocation) : list (ref * http_Request) :=
  omap (fun i =>
          match i with
          | InvokeNext w r => Some (w, r)
          | _ => None
          end) t.

(** The writer after one of the body helpers ran on it: status, then the
    content type, then the body, with the writer's answer to the [Write]. *)
Definition answered (rw : http_ResponseWriter) (status : Z) (ctype : string)
    (b : list byte) : http_ResponseWriter :=
  let before := calls rw ++ [CallWriteHeader status; CallHeaderSet "Content-Type" ctype] in
  {| HeaderMap := Header_Set (HeaderMap rw) "Content-Type" ctype;
     calls := before ++ [CallWrite b (on_write rw before b)];
     on_write := on_write rw |}.

(** What it means for a helper run [m] on the writer behind [w] that the
    status is written first and the content type set only then: the calls the
    writer [rw] receives begin with [WriteHeader(status)], at which point the
    status is committed, followed by [Header().Set(Content-Type, ctype)]; what
    follows are writes of the body only. *)
Definition is_body_write (c : SinkCall) : bool :=
  match c with
  | CallWrite _ _ => true
  | _ => false
  end.

Definition status_first (rw : http_ResponseWriter) (status : Z) (ctype : string)
    (m : M (option error)) (w : ref) (st : World) : Prop :=
  exists st' o rw' rest,
    m st = ([], st', o)
    /\ sinks st' !! w = Some rw'
    /\ calls rw' = calls rw ++ CallWriteHeader status
                              :: CallHeaderSet "Content-Type" ctype :: rest
    /\ wroteHeader (calls rw ++ [CallWriteHeader status]) = true
    /\ forallb is_body_write rest = true.

(** The condition [strict && !auth.Check() && r.URL.Path != config.RedirectURL]
    that guards the redirect, for a non-nil [auth]. *)
Definition must_redirect (config : AuthenticationConfig) (strict : bool)
    (a : AuthValue) (r : http_Request) : bool :=
  strict && negb (Check a) && negb (String.eqb (URL_Path r) (RedirectURL config)).

(** * Properties *)

(** ** Header keys *)

Example canonical_HX_Request : CanonicalMIMEHeaderKey "HX-Request" = "Hx-Request".
Proof. reflexivity. Qed.

Example canonical_content_type : CanonicalMIMEHeaderKey "content-type" = "Content-Type".
Proof. reflexivity. Qed.

Example canonical_not_a_token : CanonicalMIMEHeaderKey "x request" = "x request".
Proof. reflexivity. Qed.

(** A header map filled by hand under a key that is not canonical is not
    seen by [Get]; the server stores keys in canonical form. *)
Example Header_Get_raw_key :
  Header_Get {[ "HX-Request" := ["true"] ]} "HX-Request" = ""
  /\ Header_Get (Header dashboard_htmx) "HX-Request" = "true".
Proof. split; vm_compute; reflexivity. Qed.

(** ** The response writer store *)

Lemma set_sink_lookup st w rw : sinks (set_sink st w rw) !! w = Some rw.
Proof. unfold set_sink; simpl. apply lookup_insert_eq. Qed.

Lemma set_sink_lookup_ne st w w' rw :
  w <> w' -> sinks (set_sink st w rw) !! w' = sinks st !! w'.
Proof. intros Hne. unfold set_sink; simpl. by apply lookup_insert_ne. Qed.

Lemma set_sink_twice st w rw1 rw2 :
  set_sink (set_sink st w rw1) w rw2 = set_sink st w rw2.
Proof. unfold set_sink; simpl. by rewrite insert_insert_eq. Qed.

Lemma set_sink_errorHandler st w rw :
  errorHandler (set_sink st w rw) = errorHandler st.
Proof. reflexivity. Qed.

Lemma on_sink_live {A} w (f : http_ResponseWriter -> http_ResponseWriter * A) st rw :
  sinks st !! w = Some rw ->
  on_sink w f st = ([], set_sink st w (fst (f rw)), Returned (snd (f rw))).
Proof. intros H. unfold on_sink. rewrite H. by destruct (f rw). Qed.

Lemma on_sink_nil {A} w (f : http_ResponseWriter -> http_ResponseWriter * A) st :
  sinks st !! w = None ->
  on_sink w f st = ([], st, Panicked "nil pointer dereference").
Proof. intros H. unfold on_sink. by rewrite H. Qed.

(** ** The body helpers on a live writer *)

Lemma Bytes_live kit status b st rw :
  sinks st !! Response kit = Some rw ->
  Kit.Bytes kit status b st =
    ([], set_sink st (Response kit) (answered rw status "text/plain" b),
     Returned (on_write rw (calls rw ++ [CallWriteHeader status;
                                         CallHeaderSet "Content-Type" "text/plain"]) b)).
Proof.
  intros H. unfold Kit.Bytes, bind, WriteHeader, Header_Set_on, Write, ret.
  rewrite (on_sink_live _ _ _ _ H); simpl.
  rewrite (on_sink_live _ _ _ _ (set_sink_lookup _ _ _)); simpl.
  rewrite (on_sink_live _ _ _ _ (set_sink_lookup _ _ _)); simpl.
  rewrite !set_sink_twice. unfold answered, received; simpl.
  by rewrite <- !app_assoc.
Qed.

Lemma Bytes_nil kit status b st :
  sinks st !! Response kit = None ->
  Kit.Bytes kit status b st = ([], st, Panicked "nil pointer dereference").
Proof.
  intros H. unfold Kit.Bytes, bind, WriteHeader.
  by rewrite (on_sink_nil _ _ _ H).
Qed.

Lemma Text_unfold kit status msg st :
  Kit.Text kit status msg st = Kit.Bytes kit status (bytes_of msg) st.
Proof. reflexivity. Qed.

Lemma JSON_live kit status v s st rw :
  sinks st !! Response kit = Some rw ->
  marshal v = Some s ->
  let b := bytes_of (s +:+ String (ascii_of_nat 10) "") in
  Kit.JSON kit status v st =
    ([], set_sink st (Response kit) (answered rw status "application/json" b),
     Returned (on_write rw (calls rw ++ [CallWriteHeader status;
                                         CallHeaderSet "Content-Type" "application/json"]) b)).
Proof.
  intros H Hs b. unfold Kit.JSON, Encode, bind, WriteHeader, Header_Set_on, Write.
  rewrite Hs.
  rewrite (on_sink_live _ _ _ _ H); simpl.
  rewrite (on_sink_live _ _ _ _ (set_sink_lookup _ _ _)); simpl.
  rewrite (on_sink_live _ _ _ _ (set_sink_lookup _ _ _)); simpl.
  rewrite !set_sink_twice. unfold answered, received; simpl.
  by rewrite <- !app_assoc.
Qed.

Lemma JSON_unsupported kit status v st rw :
  sinks st !! Response kit = Some rw ->
  marshal v = None ->
  Kit.JSON kit status v st =
    ([], set_sink st (Response kit)
           {| HeaderMap := Header_Set (HeaderMap rw) "Content-Type" "application/json";
              calls := calls rw ++ [CallWriteHeader status;
                                    CallHeaderSet "Content-Type" "application/json"];
              on_write := on_write rw |},
     Returned (Some (mkError ("json: unsupported type: " +:+ unsupported_type v)))).
Proof.
  intros H Hs. unfold Kit.JSON, Encode, bind, WriteHeader, Header_Set_on, ret.
  rewrite Hs.
  rewrite (on_sink_live _ _ _ _ H); simpl.
  rewrite (on_sink_live _ _ _ _ (set_sink_lookup _ _ _)); simpl.
  rewrite !set_sink_twice. unfold received; simpl.
  by rewrite <- !app_assoc.
Qed.

Lemma Header_Get_Set h key value : Header_Get (Header_Set h key value) key = value.
Proof. unfold Header_Get, Header_Set. by rewrite lookup_insert_eq. Qed.

Lemma Body_app l1 l2 : Body (l1 ++ l2) = Body l1 ++ Body l2.
Proof.
  induction l1 as [|c l1 IH]; simpl; [done|].
  destruct c as [| |b [e|]]; simpl; rewrite IH; [done..|].
  by rewrite app_assoc.
Qed.

Lemma Body_answered rw status ctype b :
  on_write rw (calls rw ++ [CallWriteHeader status; CallHeaderSet "Content-Type" ctype]) b = None ->
  Body (calls (answered rw status ctype b)) = Body (calls rw) ++ b.
Proof.
  intros H. unfold answered; simpl. rewrite H, !Body_app. simpl.
  by rewrite !app_nil_r.
Qed.

Lemma calls_answered rw status ctype b :
  calls (answered rw status ctype b) =
    calls rw ++ [CallWriteHeader status; CallHeaderSet "Content-Type" ctype;
                 CallWrite b (on_write rw (calls rw ++ [CallWriteHeader status;
                                                        CallHeaderSet "Content-Type" ctype]) b)].
Proof. unfold answered; simpl. by rewrite <- app_assoc. Qed.

Lemma wroteHeader_after l status : wroteHeader (l ++ [CallWriteHeader status]) = true.
Proof. unfold wroteHeader. rewrite existsb_app. simpl. by rewrite orb_true_r. Qed.


(** ** Encoding and decoding

    What [marshal] writes, [read_value] reads back, with U+FFFD where a
    string held a byte of invalid UTF-8. *)

Lemma append_assoc (a b c : string) : (a +:+ b) +:+ c = a +:+ (b +:+ c).
Proof.
  induction a as [|x a IH]; [reflexivity|].
  change (String x ((a +:+ b) +:+ c) = String x (a +:+ (b +:+ c))).
  by rewrite IH.
Qed.

Lemma append_cons c (a b : string) : String c a +:+ b = String c (a +:+ b).
Proof. reflexivity. Qed.

Lemma append_empty (b : string) : "" +:+ b = b.
Proof. reflexivity. Qed.

Lemma length_append (a b : string) :
  String.length (a +:+ b) = (String.length a + String.length b)%nat.
Proof.
  induction a as [|c a IH]; [reflexivity|].
  rewrite append_cons. simpl. by rewrite IH.
Qed.

(** Appends brought into the shape of a string read from the left. *)
Ltac norm_append :=
  repeat first [rewrite append_assoc | rewrite append_cons | rewrite append_empty].

(** *** String literals *)

Lemma read_string_cons c0 r0 :
  read_string (String c0 r0) = read_string_step read_string c0 r0.
Proof. reflexivity. Qed.

Lemma runes_cons c0 r0 : runes (String c0 r0) = runes_step runes c0 r0.
Proof. reflexivity. Qed.

Lemma prepend_Some b t rest : prepend b (Some (t, rest)) = Some (b +:+ t, rest).
Proof. reflexivity. Qed.

(** A byte from 0x80 on is no quote, no backslash and no control character. *)
Lemma high_byte c :
  (code c <? 128)%N = false ->
  Ascii.eqb c dquote = false /\ Ascii.eqb c "\" = false /\ (code c <? 32)%N = false.
Proof.
  destruct c as [[] [] [] [] [] [] [] []]; intros H;
    try (vm_compute in H; discriminate H); repeat split; reflexivity.
Qed.

Lemma read_string_escape_byte c tail :
  (code c <? 128)%N = true ->
  read_string (escape_byte c +:+ tail) = prepend (String c "") (read_string tail).
Proof.
  destruct c as [[] [] [] [] [] [] [] []]; intros H;
    try (vm_compute in H; discriminate H); reflexivity.
Qed.

Lemma read_string_two c0 c1 tail :
  (code c0 <? 128)%N = false -> two_bytes c0 c1 = true ->
  read_string (String c0 (String c1 tail))
    = prepend (String c0 (String c1 "")) (read_string tail).
Proof.
  intros H0 H2. destruct (high_byte c0 H0) as (Hq & Hb & Hc).
  rewrite read_string_cons. unfold read_string_step.
  by rewrite Hq, Hb, Hc, H0, H2.
Qed.

Lemma read_string_three c0 c1 c2 tail :
  (code c0 <? 128)%N = false -> two_bytes c0 c1 = false -> three_bytes c0 c1 c2 = true ->
  read_string (String c0 (String c1 (String c2 tail)))
    = prepend (String c0 (String c1 (String c2 ""))) (read_string tail).
Proof.
  intros H0 H2 H3. destruct (high_byte c0 H0) as (Hq & Hb & Hc).
  rewrite read_string_cons. unfold read_string_step.
  by rewrite Hq, Hb, Hc, H0, H2, H3.
Qed.

Lemma read_string_four c0 c1 c2 c3 tail :
  (code c0 <? 128)%N = false -> two_bytes c0 c1 = false -> three_bytes c0 c1 c2 = false ->
  four_bytes c0 c1 c2 c3 = true ->
  read_string (String c0 (String c1 (String c2 (String c3 tail))))
    = prepend (String c0 (String c1 (String c2 (String c3 "")))) (read_string tail).
Proof.
  intros H0 H2 H3 H4. destruct (high_byte c0 H0) as (Hq & Hb & Hc).
  rewrite read_string_cons. unfold read_string_step.
  by rewrite Hq, Hb, Hc, H0, H2, H3, H4.
Qed.

(** The escape the encoder writes for a byte of invalid UTF-8 is read as
    U+FFFD. *)
Lemma read_string_broken c tail :
  read_string (escape_rune (Broken c) +:+ tail) = prepend replacement (read_string tail).
Proof. reflexivity. Qed.

Lemma escape_rune_two c0 c1 :
  escape_rune (Valid (String c0 (String c1 ""))) = String c0 (String c1 "").
Proof.
  unfold escape_rune.
  destruct (String.eqb_spec (String c0 (String c1 "")) line_separator) as [E|_];
    [discriminate E|].
  destruct (String.eqb_spec (String c0 (String c1 "")) paragraph_separator) as [E|_];
    [discriminate E|]. reflexivity.
Qed.

Lemma escape_rune_four c0 c1 c2 c3 :
  escape_rune (Valid (String c0 (String c1 (String c2 (String c3 "")))))
    = String c0 (String c1 (String c2 (String c3 ""))).
Proof.
  unfold escape_rune.
  destruct (String.eqb_spec (String c0 (String c1 (String c2 (String c3 ""))))
              line_separator) as [E|_]; [discriminate E|].
  destruct (String.eqb_spec (String c0 (String c1 (String c2 (String c3 ""))))
              paragraph_separator) as [E|_]; [discriminate E|]. reflexivity.
Qed.

(** A character of three bytes is read back, be it written as it is or, for
    the line and paragraph separators, as an escape. *)
Lemma read_string_escape_three c0 c1 c2 tail :
  (code c0 <? 128)%N = false -> two_bytes c0 c1 = false -> three_bytes c0 c1 c2 = true ->
  read_string (escape_rune (Valid (String c0 (String c1 (String c2 "")))) +:+ tail)
    = prepend (String c0 (String c1 (String c2 ""))) (read_string tail).
Proof.
  intros H0 H2 H3. unfold escape_rune.
  destruct (String.eqb_spec (String c0 (String c1 (String c2 ""))) line_separator)
    as [E|_]; [rewrite E; reflexivity|].
  destruct (String.eqb_spec (String c0 (String c1 (String c2 ""))) paragraph_separator)
    as [E|_]; [rewrite E; reflexivity|].
  rewrite !append_cons, append_empty. by apply read_string_three.
Qed.

Lemma escape_cons ru l :
  concat_strings (map escape_rune (ru :: l))
    = escape_rune ru +:+ concat_strings (map escape_rune l).
Proof. reflexivity. Qed.

Lemma coerce_cons ru l :
  concat_strings (map coerce_rune (ru :: l))
    = coerce_rune ru +:+ concat_strings (map coerce_rune l).
Proof. reflexivity. Qed.

(** What [escape] writes of a string, closed by a quote, [read_string] reads
    as the string with U+FFFD for each byte of invalid UTF-8. *)
Lemma read_string_escape_bounded n :
  forall s rest, (String.length s <= n)%nat ->
    read_string (escape s +:+ String dquote rest) = Some (to_valid_utf8 s, rest).
Proof.
  unfold escape, to_valid_utf8.
  induction n as [|n IH]; intros s rest Hn.
  - destruct s; [reflexivity|simpl in Hn; lia].
  - destruct s as [|c0 r0]; [reflexivity|]. simpl in Hn.
    assert (Hbroken :
      read_string (concat_strings (map escape_rune (Broken c0 :: runes r0))
                     +:+ String dquote rest)
        = Some (concat_strings (map coerce_rune (Broken c0 :: runes r0)), rest)).
    { rewrite escape_cons, coerce_cons, append_assoc, read_string_broken.
      by rewrite IH by lia. }
    rewrite runes_cons. unfold runes_step.
    destruct (code c0 <? 128)%N eqn:H0.
    { rewrite escape_cons, coerce_cons, append_assoc.
      change (escape_rune (Valid (String c0 ""))) with (escape_byte c0).
      rewrite (read_string_escape_byte _ _ H0). by rewrite IH by lia. }
    destruct r0 as [|c1 r1]; [exact Hbroken|].
    destruct (two_bytes c0 c1) eqn:H2.
    { rewrite escape_cons, coerce_cons, append_assoc, escape_rune_two.
      rewrite !append_cons, append_empty, (read_string_two _ _ _ H0 H2).
      simpl in Hn. by rewrite IH by lia. }
    destruct r1 as [|c2 r2]; [exact Hbroken|].
    destruct (three_bytes c0 c1 c2) eqn:H3.
    { rewrite escape_cons, coerce_cons, append_assoc.
      rewrite (read_string_escape_three _ _ _ _ H0 H2 H3).
      simpl in Hn. by rewrite IH by lia. }
    destruct r2 as [|c3 r3]; [exact Hbroken|].
    destruct (four_bytes c0 c1 c2 c3) eqn:H4; [|exact Hbroken].
    rewrite escape_cons, coerce_cons, append_assoc, escape_rune_four.
    rewrite !append_cons, append_empty, (read_string_four _ _ _ _ _ H0 H2 H3 H4).
    simpl in Hn. by rewrite IH by lia.
Qed.

Lemma read_string_escape s rest :
  read_string (escape s +:+ String dquote rest) = Some (to_valid_utf8 s, rest).
Proof. by apply (read_string_escape_bounded (String.length s)). Qed.

(** Valid UTF-8 goes through the encoder unchanged. *)
Lemma to_valid_utf8_bounded n :
  forall s, (String.length s <= n)%nat -> valid_utf8 s = true -> to_valid_utf8 s = s.
Proof.
  unfold valid_utf8, to_valid_utf8.
  induction n as [|n IH]; intros s Hn.
  - destruct s; [reflexivity|simpl in Hn; lia].
  - destruct s as [|c0 r0]; [reflexivity|]. simpl in Hn.
    rewrite runes_cons. unfold runes_step.
    destruct (code c0 <? 128)%N.
    { intros Hv. rewrite coerce_cons. simpl in Hv. by rewrite IH by (lia || done). }
    destruct r0 as [|c1 r1]; [discriminate|].
    destruct (two_bytes c0 c1).
    { intros Hv. rewrite coerce_cons. simpl in Hv, Hn. by rewrite IH by (lia || done). }
    destruct r1 as [|c2 r2]; [discriminate|].
    destruct (three_bytes c0 c1 c2).
    { intros Hv. rewrite coerce_cons. simpl in Hv, Hn. by rewrite IH by (lia || done). }
    destruct r2 as [|c3 r3]; [discriminate|].
    destruct (four_bytes c0 c1 c2 c3); [|discriminate].
    intros Hv. rewrite coerce_cons. simpl in Hv, Hn. by rewrite IH by (lia || done).
Qed.

Lemma to_valid_utf8_valid s : valid_utf8 s = true -> to_valid_utf8 s = s.
Proof. by apply (to_valid_utf8_bounded (String.length s)). Qed.

Lemma coerce_value_valid v : valid_value v = true -> coerce_value v = v.
Proof.
  induction v as [|b|n|x|l IH|l IH|t] using value_ind_nested; simpl; intros Hv;
    try reflexivity.
  - by rewrite to_valid_utf8_valid.
  - f_equal. induction IH as [|x l Hx _ IHl]; [reflexivity|].
    simpl in Hv |- *. apply andb_prop in Hv as [Hv1 Hv2].
    by rewrite Hx, IHl.
  - f_equal. induction IH as [|[k x] l Hx _ IHl]; [reflexivity|].
    simpl in Hv, Hx |- *. apply andb_prop in Hv as [Hv1 Hv2].
    apply andb_prop in Hv1 as [Hk Hx'].
    by rewrite (to_valid_utf8_valid _ Hk), Hx, IHl.
Qed.

(** *** Integers *)

Lemma span_digits_cons c s :
  is_digit c = true ->
  span_digits (String c s) = (String c (fst (span_digits s)), snd (span_digits s)).
Proof. intros H. simpl. rewrite H. by destruct (span_digits s). Qed.

Lemma span_digits_stop rest : delimited rest -> span_digits rest = ("", rest).
Proof.
  destruct rest as [|c rest]; [reflexivity|]. simpl. by intros ->.
Qed.

Lemma span_digits_string_of_uint d rest :
  delimited rest ->
  span_digits (NilEmpty.string_of_uint d +:+ rest) = (NilEmpty.string_of_uint d, rest).
Proof.
  intros Hr. induction d as [|d IH|d IH|d IH|d IH|d IH|d IH|d IH|d IH|d IH|d IH];
    simpl NilEmpty.string_of_uint;
    [by apply span_digits_stop|..];
    rewrite append_cons, span_digits_cons by reflexivity; by rewrite IH.
Qed.

Lemma to_uint_normal p : unorm (Pos.to_uint p) = Pos.to_uint p.
Proof.
  rewrite <- (DecimalPos.Unsigned.to_of (Pos.to_uint p)).
  by rewrite DecimalPos.Unsigned.of_to.
Qed.

Lemma to_uint_head p d : Pos.to_uint p <> D0 d.
Proof.
  intros H. pose proof (to_uint_normal p) as Hn. rewrite H in Hn.
  rewrite unorm_D0 in Hn. unfold unorm in Hn.
  destruct (nzhead d) as [|u|u|u|u|u|u|u|u|u|u] eqn:E; try discriminate.
  - injection Hn as <-. by apply (DecimalPos.Unsigned.to_uint_nonzero p).
  - by apply (nzhead_nonzero d u).
Qed.

Lemma Z_of_uint_to_uint p : Z.of_uint (Pos.to_uint p) = Z.pos p.
Proof. unfold Z.of_uint. by rewrite DecimalPos.Unsigned.of_to. Qed.

Lemma read_digits p rest :
  delimited rest ->
  exists c more,
    NilEmpty.string_of_uint (Pos.to_uint p) = String c more
    /\ is_digit c = true
    /\ Ascii.eqb c "0" = false
    /\ span_digits (String c more +:+ rest) = (String c more, rest)
    /\ NilZero.uint_of_string (String c more) = Some (Pos.to_uint p).
Proof.
  intros Hr. pose proof (span_digits_string_of_uint (Pos.to_uint p) rest Hr) as Hs.
  pose proof (NilEmpty.usu (Pos.to_uint p)) as Hu.
  pose proof (to_uint_head p) as H0.
  pose proof (DecimalPos.Unsigned.to_uint_nonnil p) as Hnil.
  destruct (Pos.to_uint p) as [|d|d|d|d|d|d|d|d|d|d]; [done|by destruct (H0 d)|..];
    simpl NilEmpty.string_of_uint in *; eexists _, _;
    (split; [reflexivity|]); (split; [reflexivity|]); (split; [reflexivity|]);
    (split; [exact Hs|exact Hu]).
Qed.

Lemma read_int_string_of_Z n rest :
  delimited rest ->
  read_int (string_of_Z n +:+ rest) = Some (n, rest).
Proof.
  intros Hr. unfold string_of_Z. destruct n as [|p|p]; simpl Z.to_int.
  - change (NilZero.string_of_int (Pos zero) +:+ rest) with (String "0" rest).
    unfold read_int. simpl Ascii.eqb. cbv iota beta.
    rewrite span_digits_cons by reflexivity. rewrite (span_digits_stop rest Hr).
    reflexivity.
  - destruct (read_digits p rest Hr) as (c & more & Hd & Hc & Hz & Hs & Hu).
    pose proof (DecimalPos.Unsigned.to_uint_nonnil p) as Hnil.
    assert (NilZero.string_of_int (Pos (Pos.to_uint p)) = String c more) as ->.
    { simpl. unfold NilZero.string_of_uint. by destruct (Pos.to_uint p). }
    unfold read_int. rewrite append_cons.
    assert (Ascii.eqb c "-" = false) as ->.
    { by destruct c as [[] [] [] [] [] [] [] []]. }
    rewrite <- append_cons, Hs, Hz. cbn [andb].
    rewrite Hu. by rewrite Z_of_uint_to_uint.
  - destruct (read_digits p rest Hr) as (c & more & Hd & Hc & Hz & Hs & Hu).
    pose proof (DecimalPos.Unsigned.to_uint_nonnil p) as Hnil.
    assert (NilZero.string_of_int (Neg (Pos.to_uint p)) = String "-" (String c more)) as ->.
    { simpl. unfold NilZero.string_of_uint. rewrite <- Hd. by destruct (Pos.to_uint p). }
    unfold read_int. rewrite append_cons. simpl Ascii.eqb. cbv iota beta.
    rewrite Hs, Hz. cbn [andb]. rewrite Hu. by rewrite Z_of_uint_to_uint.
Qed.

(** *** Values *)

Lemma value_start_facts c :
  value_start c = true ->
  is_space c = false /\ Ascii.eqb c "]" = false /\ Ascii.eqb c "}" = false.
Proof. destruct c as [[] [] [] [] [] [] [] []]; intros H; try discriminate H; done. Qed.

Lemma string_of_Z_head n :
  exists c s, string_of_Z n = String c s /\ (Ascii.eqb c "-" || is_digit c) = true.
Proof.
  unfold string_of_Z. destruct n as [|p|p]; simpl Z.to_int.
  - by eexists _, _.
  - destruct (read_digits p "" I) as (c & more & Hd & Hc & _).
    exists c, more. split; [|by rewrite Hc, orb_true_r].
    simpl. unfold NilZero.string_of_uint. rewrite <- Hd.
    pose proof (DecimalPos.Unsigned.to_uint_nonnil p). by destruct (Pos.to_uint p).
  - by eexists _, _.
Qed.

Lemma marshal_head v s :
  marshal v = Some s -> exists c s', s = String c s' /\ value_start c = true.
Proof.
  destruct v as [|[]|n|x|l|l|t]; simpl; intros H; try discriminate H.
  - injection H as <-. by eexists _, _.
  - injection H as <-. by eexists _, _.
  - injection H as <-. by eexists _, _.
  - injection H as <-. destruct (string_of_Z_head n) as (c & s' & -> & Hc).
    exists c, s'. split; [done|]. unfold value_start.
    destruct (Ascii.eqb c "-"), (is_digit c); try discriminate Hc;
      by rewrite ?orb_true_r.
  - injection H as <-. by eexists _, _.
  - destruct (joined _ _ _ _); [|discriminate H]. injection H as <-. by eexists _, _.
  - destruct (joined _ _ _ _); [|discriminate H]. injection H as <-. by eexists _, _.
Qed.

Lemma read_value_int f c r :
  (Ascii.eqb c "-" || is_digit c) = true ->
  read_value (S f) (String c r) = tagged Int (read_int (String c r)).
Proof. destruct c as [[] [] [] [] [] [] [] []]; intros H; try discriminate H; reflexivity. Qed.

Lemma read_value_array f c r :
  value_start c = true ->
  read_value (S f) (String "[" (String c r)) = tagged Array (read_elems f (String c r)).
Proof. destruct c as [[] [] [] [] [] [] [] []]; intros H; try discriminate H; reflexivity. Qed.

Lemma read_value_object f r :
  read_value (S f) (String "{" (String dquote r))
    = tagged Object (read_members f (String dquote r)).
Proof. reflexivity. Qed.

Lemma read_elems_S f s :
  read_elems (S f) s =
    match read_value f s with
    | Some (x, r) =>
        match skip_space r with
        | EmptyString => None
        | String c r' =>
            if Ascii.eqb c "]" then Some ([x], r')
            else if Ascii.eqb c "," then tagged (cons x) (read_elems f r')
            else None
        end
    | None => None
    end.
Proof. reflexivity. Qed.

Lemma read_members_S f k s :
  read_members (S f) (quote k +:+ String ":" s) =
    match read_value f s with
    | Some (x, r2) =>
        match skip_space r2 with
        | EmptyString => None
        | String c' r3 =>
            if Ascii.eqb c' "}" then Some ([(to_valid_utf8 k, x)], r3)
            else if Ascii.eqb c' "," then
              tagged (cons (to_valid_utf8 k, x)) (read_members f r3)
            else None
        end
    | None => None
    end.
Proof.
  unfold quote. rewrite append_cons, append_assoc, append_cons, append_empty.
  change (read_members (S f) (String dquote ?lit)) with
    (match read_string lit with
     | Some (k, r) =>
         match skip_space r with
         | EmptyString => None
         | String c r1 =>
             if Ascii.eqb c ":" then
               match read_value f r1 with
               | Some (x, r2) =>
                   match skip_space r2 with
                   | EmptyString => None
                   | String c' r3 =>
                       if Ascii.eqb c' "}" then Some ([(k, x)], r3)
                       else if Ascii.eqb c' "," then
                              tagged (cons (k, x)) (read_members f r3)
                            else None
                   end
               | None => None
               end
             else None
         end
     | None => None
     end).
  by rewrite read_string_escape.
Qed.

Lemma joined_cons {A} (enc : A -> option string) close x l first :
  joined enc close (x :: l) first =
    match enc x, joined enc close l false with
    | Some a, Some b => Some ((if first then "" else ",") +:+ a +:+ b)
    | _, _ => None
    end.
Proof. reflexivity. Qed.

Lemma read_elems_joined l :
  List.Forall reads_back l ->
  forall x first body,
    joined marshal "]" (x :: l) first = Some body ->
    reads_back x ->
    exists c tail,
      body = (if first then "" else ",") +:+ String c tail
      /\ value_start c = true
      /\ forall fuel rest,
           (list_sum (map (fun x => S (value_size x)) (x :: l)) <= fuel)%nat ->
           read_elems fuel (String c tail +:+ rest) = Some (map coerce_value (x :: l), rest).
Proof.
  induction 1 as [|y l Hy Hl IH]; intros x first body Hb Hx.
  - rewrite joined_cons in Hb. destruct (marshal x) as [a|] eqn:Ha; [|discriminate Hb].
    simpl in Hb. injection Hb as <-.
    destruct (marshal_head x a Ha) as (c & a' & -> & Hc).
    exists c, (a' +:+ "]"). split; [done|]. split; [done|].
    intros fuel rest Hf. simpl in Hf. destruct fuel as [|fuel]; [lia|].
    rewrite read_elems_S, <- append_cons, append_assoc.
    rewrite (Hx _ Ha fuel ("]" +:+ rest)) by (done || lia). reflexivity.
  - rewrite joined_cons in Hb. destruct (marshal x) as [a|] eqn:Ha; [|discriminate Hb].
    destruct (joined marshal "]" (y :: l) false) as [b|] eqn:Hj; [|discriminate Hb].
    injection Hb as <-.
    destruct (IH y false b Hj Hy) as (c' & tail & -> & Hc' & Hread).
    destruct (marshal_head x a Ha) as (c & a' & -> & Hc).
    exists c, (a' +:+ "," +:+ String c' tail). split; [done|]. split; [done|].
    intros fuel rest Hf. destruct fuel as [|fuel]; [simpl in Hf; lia|].
    rewrite read_elems_S, <- append_cons, !append_assoc.
    rewrite (Hx _ Ha fuel ("," +:+ String c' tail +:+ rest)); [|simpl in Hf |- *; lia|done].
    change (skip_space ("," +:+ String c' tail +:+ rest))
      with (String "," (String c' tail +:+ rest)).
    cbv iota beta. simpl Ascii.eqb. cbv iota.
    rewrite Hread; [reflexivity|]. simpl in Hf |- *. lia.
Qed.

Lemma read_members_joined l :
  List.Forall (fun m => reads_back (snd m)) l ->
  forall m first body,
    joined (fun m : string * value =>
              match marshal (snd m) with
              | Some a => Some (quote (fst m) +:+ String ":" a)
              | None => None
              end) "}" (m :: l) first = Some body ->
    reads_back (snd m) ->
    exists tail,
      body = (if first then "" else ",") +:+ String dquote tail
      /\ forall fuel rest,
           (list_sum (map (fun m => S (value_size (snd m))) (m :: l)) <= fuel)%nat ->
           read_members fuel (String dquote tail +:+ rest)
             = Some (map (fun m : string * value =>
                            (to_valid_utf8 (fst m), coerce_value (snd m))) (m :: l), rest).
Proof.
  induction 1 as [|y l Hy Hl IH]; intros [k x] first body Hb Hx; simpl in Hx.
  - rewrite joined_cons in Hb. simpl in Hb.
    destruct (marshal x) as [a|] eqn:Ha; [|discriminate Hb].
    injection Hb as <-.
    exists (escape k +:+ String dquote "" +:+ String ":" a +:+ "}").
    split; [unfold quote; norm_append; reflexivity|].
    intros fuel rest Hf. simpl in Hf. destruct fuel as [|fuel]; [lia|].
    replace (String dquote (escape k +:+ String dquote "" +:+ String ":" a +:+ "}") +:+ rest)
      with (quote k +:+ String ":" (a +:+ "}" +:+ rest))
      by (unfold quote; norm_append; reflexivity).
    rewrite read_members_S.
    rewrite (Hx a Ha fuel ("}" +:+ rest)) by (done || lia). reflexivity.
  - rewrite joined_cons in Hb. simpl in Hb.
    destruct (marshal x) as [a|] eqn:Ha; [|discriminate Hb].
    match type of Hb with
    | match ?j with _ => _ end = _ => destruct j as [b|] eqn:Hj; [|discriminate Hb]
    end.
    injection Hb as <-.
    destruct (IH y false b Hj Hy) as (tail & -> & Hread).
    exists (escape k +:+ String dquote "" +:+ String ":" a +:+ "," +:+ String dquote tail).
    split; [unfold quote; norm_append; reflexivity|].
    intros fuel rest Hf. destruct fuel as [|fuel]; [simpl in Hf; lia|].
    replace (String dquote (escape k +:+ String dquote "" +:+ String ":" a
                            +:+ "," +:+ String dquote tail) +:+ rest)
      with (quote k +:+ String ":" (a +:+ "," +:+ String dquote tail +:+ rest))
      by (unfold quote; norm_append; reflexivity).
    rewrite read_members_S.
    rewrite (Hx a Ha fuel ("," +:+ String dquote tail +:+ rest));
      [|simpl in Hf |- *; lia|done].
    change (skip_space ("," +:+ String dquote tail +:+ rest))
      with (String "," (String dquote tail +:+ rest)).
    cbv iota beta. simpl Ascii.eqb. cbv iota.
    rewrite Hread; [reflexivity|]. simpl in Hf |- *. lia.
Qed.

Lemma read_value_marshal v : reads_back v.
Proof.
  induction v as [|b|n|x|l IH|l IH|t] using value_ind_nested;
    intros s Hs fuel rest Hf Hr; simpl in Hf;
    (destruct fuel as [|fuel]; [lia|]).
  - injection Hs as <-. reflexivity.
  - destruct b; injection Hs as <-; reflexivity.
  - injection Hs as <-.
    destruct (string_of_Z_head n) as (c & s' & Hc & Hstart).
    pose proof (read_int_string_of_Z n rest Hr) as Hi.
    rewrite Hc in Hi |- *. rewrite append_cons in Hi |- *.
    by rewrite (read_value_int _ _ _ Hstart), Hi.
  - injection Hs as <-. unfold quote. norm_append.
    change (read_value (S fuel) (String dquote ?lit)) with (tagged Str (read_string lit)).
    by rewrite read_string_escape.
  - simpl in Hs. destruct l as [|x l].
    + injection Hs as <-. reflexivity.
    + destruct (joined marshal "]" (x :: l) true) as [body|] eqn:Hj; [|discriminate Hs].
      injection Hs as <-.
      destruct (read_elems_joined l (Forall_inv_tail IH) x true body Hj (Forall_inv IH))
        as (c & tail & -> & Hc & Hread).
      rewrite append_empty, !append_cons.
      rewrite (read_value_array _ _ _ Hc).
      rewrite <- !append_cons. rewrite Hread by lia. reflexivity.
  - simpl in Hs. destruct l as [|[k x] l].
    + injection Hs as <-. reflexivity.
    + match type of Hs with
      | match ?j with _ => _ end = _ => destruct j as [body|] eqn:Hj; [|discriminate Hs]
      end.
      injection Hs as <-.
      destruct (read_members_joined l (Forall_inv_tail IH) (k, x) true body Hj (Forall_inv IH))
        as (tail & -> & Hread).
      rewrite append_empty, !append_cons.
      rewrite read_value_object.
      rewrite <- !append_cons. rewrite Hread by lia. reflexivity.
  - discriminate Hs.
Qed.

(** *** The budget of [unmarshal] *)

Lemma joined_fits {A} (enc : A -> option string) (size : A -> nat) close l :
  (1 <= String.length close)%nat ->
  List.Forall (fun x => forall a, enc x = Some a -> (size x + 1 <= 2 * String.length a)%nat) l ->
  forall first body,
    joined enc close l first = Some body ->
    (list_sum (map (fun x => S (size x)) l) + 1 <= 2 * String.length body)%nat.
Proof.
  intros Hc. induction 1 as [|x l Hx Hl IH]; intros first body Hb.
  - injection Hb as <-. simpl. lia.
  - rewrite joined_cons in Hb. destruct (enc x) as [a|] eqn:Ha; [|discriminate Hb].
    destruct (joined enc close l false) as [b|] eqn:Hj; [|discriminate Hb].
    injection Hb as <-. rewrite !length_append.
    specialize (Hx a eq_refl). specialize (IH false b Hj). simpl. lia.
Qed.

Lemma marshal_fits v : fits v.
Proof.
  induction v as [|b|n|x|l IH|l IH|t] using value_ind_nested; intros s Hs.
  - injection Hs as <-. simpl. lia.
  - destruct b; injection Hs as <-; simpl; lia.
  - injection Hs as <-. destruct (string_of_Z_head n) as (c & s' & -> & _). simpl. lia.
  - injection Hs as <-. unfold quote. simpl. lia.
  - simpl in Hs.
    destruct (joined marshal "]" l true) as [body|] eqn:Hj; [|discriminate Hs].
    injection Hs as <-.
    pose proof (joined_fits marshal value_size "]" l ltac:(simpl; lia) IH true body Hj).
    simpl. lia.
  - simpl in Hs.
    match type of Hs with
    | match ?j with _ => _ end = _ => destruct j as [body|] eqn:Hj; [|discriminate Hs]
    end.
    injection Hs as <-.
    eapply (joined_fits _ (fun m => value_size (snd m)) "}" l ltac:(simpl; lia)) in Hj.
    + simpl. simpl in Hj. lia.
    + eapply Forall_impl; [exact IH|]. intros [k x] Hx a Ha. simpl in *.
      destruct (marshal x) as [a'|] eqn:Hm; [|discriminate Ha].
      injection Ha as <-. specialize (Hx a' Hm).
      rewrite length_append. simpl. lia.
  - discriminate Hs.
Qed.

(** Every value the encoder accepts is read back, up to invalid UTF-8, from
    what [Encode] writes: its encoding followed by a newline. *)
Lemma unmarshal_marshal v s :
  marshal v = Some s ->
  unmarshal (bytes_of (s +:+ String (ascii_of_nat 10) "")) = Some (coerce_value v).
Proof.
  intros Hs. unfold unmarshal, bytes_of. rewrite string_of_list_byte_of_string.
  rewrite (read_value_marshal v s Hs); [reflexivity| |done].
  pose proof (marshal_fits v s Hs). rewrite length_append. lia.
Qed.

(** ** Text and Bytes *)

(** C8: for every status and message, [Text(status, msg)] runs exactly as
    [Bytes(status, []byte(msg))] does, whatever the world (also when the
    writer is nil); on a live writer both make the calls WriteHeader(status),
    Header().Set(Content-Type, text/plain), Write(bytes of msg), in this
    order, and both return the writer's answer to that Write. *)
Theorem Text_same_as_Bytes (kit : Kit) (status : Z) (msg : string) (st : World) :
  Kit.Text kit status msg st = Kit.Bytes kit status (bytes_of msg) st
  /\ forall rw, sinks st !! Response kit = Some rw ->
       exists err rw',
         Kit.Text kit status msg st = ([], set_sink st (Response kit) rw', Returned err)
         /\ Kit.Bytes kit status (bytes_of msg) st
              = ([], set_sink st (Response kit) rw', Returned err)
         /\ calls rw' = calls rw ++ [CallWriteHeader status;
                                     CallHeaderSet "Content-Type" "text/plain";
                                     CallWrite (bytes_of msg) err].
Proof.
  split; [apply Text_unfold|].
  intros rw H. eexists _, _.
  rewrite Text_unfold, (Bytes_live _ _ _ _ _ H).
  split; [reflexivity|]. split; [reflexivity|]. apply calls_answered.
Qed.

Lemma Text_same_as_Bytes_hello :
  let kit := {| Response := 1%positive; Request := dashboard |} in
  Kit.Text kit 200 "hello" serving = Kit.Bytes kit 200 (bytes_of "hello") serving
  /\ exists err rw',
       Kit.Text kit 200 "hello" serving = ([], set_sink serving 1%positive rw', Returned err)
       /\ Kit.Bytes kit 200 (bytes_of "hello") serving
            = ([], set_sink serving 1%positive rw', Returned err)
       /\ calls rw' = calls recorder ++ [CallWriteHeader 200;
                                         CallHeaderSet "Content-Type" "text/plain";
                                         CallWrite (bytes_of "hello") err].
Proof.
  intros kit.
  destruct (Text_same_as_Bytes kit 200 "hello" serving) as [Heq Hlive].
  split; [exact Heq|]. apply (Hlive recorder). reflexivity.
Defined.

(** ** Order of the status and the content type *)

Lemma status_first_answered rw status ctype b m w st o :
  m st = ([], set_sink st w (answered rw status ctype b), o) ->
  status_first rw status ctype m w st.
Proof.
  intros H. eexists _, _, _, _. split; [exact H|].
  split; [apply set_sink_lookup|].
  split; [apply calls_answered|].
  split; [apply wroteHeader_after|reflexivity].
Qed.

(** C9: in each of JSON, Text and Bytes the writer receives
    WriteHeader(status) first, so that the status is committed, and the
    Content-Type is set on the header map only after that; the remaining
    calls of the helper are writes of the body. *)
Theorem status_written_before_content_type
    (kit : Kit) (status : Z) (v : value) (msg : string) (b : list byte)
    (st : World) (rw : http_ResponseWriter) :
  sinks st !! Response kit = Some rw ->
  status_first rw status "application/json" (Kit.JSON kit status v) (Response kit) st
  /\ status_first rw status "text/plain" (Kit.Text kit status msg) (Response kit) st
  /\ status_first rw status "text/plain" (Kit.Bytes kit status b) (Response kit) st.
Proof.
  intros H. split; [|split].
  - destruct (marshal v) as [s|] eqn:Hs.
    + eapply status_first_answered. apply (JSON_live _ _ _ _ _ _ H Hs).
    + eexists _, _, _, []. split; [apply (JSON_unsupported _ _ _ _ _ H Hs)|].
      split; [apply set_sink_lookup|]. simpl.
      split; [reflexivity|]. split; [apply wroteHeader_after|reflexivity].
  - eapply status_first_answered. rewrite Text_unfold. apply (Bytes_live _ _ _ _ _ H).
  - eapply status_first_answered. apply (Bytes_live _ _ _ _ _ H).
Qed.

Lemma status_written_before_content_type_recorder :
  let kit := {| Response := 1%positive; Request := dashboard |} in
  status_first recorder 201 "application/json"
    (Kit.JSON kit 201 (Array [Int 1; Unsupported "chan int"])) 1%positive serving
  /\ status_first recorder 201 "text/plain" (Kit.Text kit 201 "made") 1%positive serving
  /\ status_first recorder 201 "text/plain" (Kit.Bytes kit 201 []) 1%positive serving.
Proof.
  intros kit.
  apply (status_written_before_content_type kit 201
           (Array [Int 1; Unsupported "chan int"]) "made" [] serving recorder).
  reflexivity.
Defined.

(** ** The default error handler, and the headers that are sent *)

(** [Redirect] sets its header before it writes the status, so the header is
    part of the response. *)
Lemma Redirect_header_is_sent h url :
  exists sent,
    Header_at_commit h [CallHeaderSet "HX-Redirect" url; CallWriteHeader 303] = Some sent
    /\ Header_Get sent "HX-Redirect" = url.
Proof. eexists. split; [reflexivity|apply Header_Get_Set]. Qed.

(** C4, on a fresh writer: the function that initialises [errorHandler]
    makes the writer receive WriteHeader(500), then Header().Set(Content-Type,
    text/plain), then a Write of the error's message. Status and body are as
    the claim says. The content type is not: it is set when the status is
    already committed, so the headers of the response are those the writer
    had before the call, without a Content-Type; text/plain shows only in
    the header map read afterwards. *)
Theorem default_errorHandler_content_type_not_sent
    (hostEH : nat -> Kit -> error -> host unit) (kit : Kit) (e : error)
    (st : World) (rw : http_ResponseWriter) :
  sinks st !! Response kit = Some rw ->
  calls rw = [] ->
  Header_Get (HeaderMap rw) "Content-Type" = "" ->
  exists rw' err sent,
    call_ErrorHandlerFunc hostEH defaultErrorHandler kit e st
      = ([InvokeErrorHandler defaultErrorHandler kit e],
         set_sink st (Response kit) rw', Returned tt)
    /\ calls rw' = [CallWriteHeader 500;
                    CallHeaderSet "Content-Type" "text/plain";
                    CallWrite (bytes_of (Error e)) err]
    /\ Header_at_commit (HeaderMap rw) (calls rw') = Some sent
    /\ Header_Get sent "Content-Type" = ""
    /\ Header_Get (HeaderMap rw') "Content-Type" = "text/plain"
    /\ (err = None -> Body (calls rw') = bytes_of (Error e)).
Proof.
  intros H Hfresh Hct. eexists _, _, _.
  split.
  { unfold call_ErrorHandlerFunc, invoke, as_host, bind.
    rewrite Text_unfold, (Bytes_live _ _ _ _ _ H). reflexivity. }
  rewrite calls_answered, Hfresh. cbn [app].
  split; [reflexivity|]. split; [reflexivity|]. split; [exact Hct|].
  split; [apply Header_Get_Set|].
  intros Herr. simpl. rewrite Herr. simpl. apply app_nil_r.
Qed.

Lemma default_errorHandler_content_type_not_sent_boom :
  exists rw' err sent,
    call_ErrorHandlerFunc hostHandlers defaultErrorHandler
        {| Response := 1%positive; Request := dashboard |} boom serving
      = ([InvokeErrorHandler defaultErrorHandler
            {| Response := 1%positive; Request := dashboard |} boom],
         set_sink serving 1%positive rw', Returned tt)
    /\ calls rw' = [CallWriteHeader 500;
                    CallHeaderSet "Content-Type" "text/plain";
                    CallWrite (bytes_of (Error boom)) err]
    /\ Header_at_commit (HeaderMap recorder) (calls rw') = Some sent
    /\ Header_Get sent "Content-Type" = ""
    /\ Header_Get (HeaderMap rw') "Content-Type" = "text/plain"
    /\ (err = None -> Body (calls rw') = bytes_of (Error boom)).
Proof.
  apply (default_errorHandler_content_type_not_sent hostHandlers
           {| Response := 1%positive; Request := dashboard |} boom serving recorder);
    reflexivity.
Defined.

(** ** JSON *)

(** C7, on a fresh writer: [JSON(200, v)] for the value [{"a":1}] makes the
    writer receive WriteHeader(200), then Header().Set(Content-Type,
    application/json), then one Write whose bytes, the encoding of the value
    and a newline, decode back to [{"a":1}]. The body is as the claim says.
    The Content-Type header is not: it is set when the status is already
    committed, so the headers of the response are those the writer had
    before the call, without a Content-Type; application/json shows only in
    the header map read afterwards. *)
Theorem JSON_content_type_not_sent (kit : Kit) (st : World) (rw : http_ResponseWriter) :
  sinks st !! Response kit = Some rw ->
  calls rw = [] ->
  Header_Get (HeaderMap rw) "Content-Type" = "" ->
  let v := Object [("a", Int 1)] in
  exists rw' b err sent,
    Kit.JSON kit 200 v st = ([], set_sink st (Response kit) rw', Returned err)
    /\ calls rw' = [CallWriteHeader 200;
                    CallHeaderSet "Content-Type" "application/json";
                    CallWrite b err]
    /\ (exists s, marshal v = Some s /\ b = bytes_of (s +:+ String (ascii_of_nat 10) ""))
    /\ unmarshal b = Some v
    /\ Header_at_commit (HeaderMap rw) (calls rw') = Some sent
    /\ Header_Get sent "Content-Type" = ""
    /\ Header_Get (HeaderMap rw') "Content-Type" = "application/json".
Proof.
  intros H Hfresh Hct v.
  assert (Hs : marshal v = Some (String "{" (quote "a" +:+ ":1}"))) by reflexivity.
  eexists _, _, _, _. split; [apply (JSON_live _ _ _ _ _ _ H Hs)|].
  rewrite calls_answered, Hfresh. cbn [app].
  split; [reflexivity|].
  split; [eexists; split; [exact Hs|reflexivity]|].
  split; [vm_compute; reflexivity|].
  split; [reflexivity|]. split; [exact Hct|apply Header_Get_Set].
Qed.

Lemma JSON_content_type_not_sent_recorder :
  exists rw' b err sent,
    Kit.JSON {| Response := 1%positive; Request := dashboard |} 200
        (Object [("a", Int 1)]) serving
      = ([], set_sink serving 1%positive rw', Returned err)
    /\ calls rw' = [CallWriteHeader 200;
                    CallHeaderSet "Content-Type" "application/json";
                    CallWrite b err]
    /\ (exists s, marshal (Object [("a", Int 1)]) = Some s
                  /\ b = bytes_of (s +:+ String (ascii_of_nat 10) ""))
    /\ unmarshal b = Some (Object [("a", Int 1)])
    /\ Header_at_commit (HeaderMap recorder) (calls rw') = Some sent
    /\ Header_Get sent "Content-Type" = ""
    /\ Header_Get (HeaderMap rw') "Content-Type" = "application/json".
Proof.
  apply (JSON_content_type_not_sent {| Response := 1%positive; Request := dashboard |}
           serving recorder); reflexivity.
Defined.

(** For every status and every value [v] built of nil, booleans, integers,
    strings, slices and structs or maps that the encoder accepts,
    [JSON(status, v)] on a live writer makes the writer receive
    WriteHeader(status), Header().Set(Content-Type, application/json) and one
    Write of the encoding of [v] and a newline, and returns the writer's
    answer to that Write. These bytes decode back to [v] with U+FFFD in the
    place of each byte of invalid UTF-8 in its strings and member names, so
    to [v] itself when these are all valid UTF-8. For a value the encoder
    refuses it returns the encoder's error after the status and the content
    type, and writes no body. *)
Theorem JSON_body_decodes_back (kit : Kit) (status : Z) (v : value)
    (st : World) (rw : http_ResponseWriter) :
  sinks st !! Response kit = Some rw ->
  (forall s, marshal v = Some s ->
     exists rw' err,
       Kit.JSON kit status v st = ([], set_sink st (Response kit) rw', Returned err)
       /\ calls rw' = calls rw ++ [CallWriteHeader status;
                                   CallHeaderSet "Content-Type" "application/json";
                                   CallWrite (bytes_of (s +:+ String (ascii_of_nat 10) "")) err]
       /\ unmarshal (bytes_of (s +:+ String (ascii_of_nat 10) "")) = Some (coerce_value v)
       /\ (valid_value v = true ->
           unmarshal (bytes_of (s +:+ String (ascii_of_nat 10) "")) = Some v))
  /\ (marshal v = None ->
      exists rw' e,
        Kit.JSON kit status v st = ([], set_sink st (Response kit) rw', Returned (Some e))
        /\ calls rw' = calls rw ++ [CallWriteHeader status;
                                    CallHeaderSet "Content-Type" "application/json"]).
Proof.
  intros H. split.
  - intros s Hs. eexists _, _. split; [apply (JSON_live _ _ _ _ _ _ H Hs)|].
    split; [apply calls_answered|]. split; [by apply unmarshal_marshal|].
    intros Hv. rewrite (unmarshal_marshal v s Hs). by rewrite coerce_value_valid.
  - intros Hs. eexists _, _. split; [apply (JSON_unsupported _ _ _ _ _ H Hs)|].
    reflexivity.
Qed.

Lemma JSON_body_decodes_back_nested :
  let cafe := String "c" (String "a" (String "f" (String "195" (String "169" "")))) in
  let v := Object [("user", Object [("name", Str "a<b"); (cafe, Array [Int 7; Int (-3)])]);
                   ("ok", Bool true); ("next", Null); ("sep", Str line_separator)] in
  let torn := Array [Str (String "a" (String "255" (String "195" "")))] in
  (exists s rw' err,
     marshal v = Some s
     /\ Kit.JSON {| Response := 1%positive; Request := dashboard |} 201 v serving
          = ([], set_sink serving 1%positive rw', Returned err)
     /\ calls rw' = calls recorder ++ [CallWriteHeader 201;
                                       CallHeaderSet "Content-Type" "application/json";
                                       CallWrite (bytes_of (s +:+ String (ascii_of_nat 10) "")) err]
     /\ unmarshal (bytes_of (s +:+ String (ascii_of_nat 10) "")) = Some v)
  /\ (exists s rw' err,
        marshal torn = Some s
        /\ s = String "[" (String dquote (String "a"
                 (String "\" "ufffd" +:+ String "\" "ufffd" +:+ String dquote "]")))
        /\ Kit.JSON {| Response := 1%positive; Request := dashboard |} 200 torn serving
             = ([], set_sink serving 1%positive rw', Returned err)
        /\ unmarshal (bytes_of (s +:+ String (ascii_of_nat 10) ""))
             = Some (Array [Str (String "a" (replacement +:+ replacement))]))
  /\ (exists rw' e,
        Kit.JSON {| Response := 1%positive; Request := dashboard |} 200
            (Array [Unsupported "chan int"]) serving
          = ([], set_sink serving 1%positive rw', Returned (Some e))
        /\ calls rw' = calls recorder ++ [CallWriteHeader 200;
                                          CallHeaderSet "Content-Type" "application/json"]).
Proof.
  intros cafe v torn. split; [|split].
  - destruct (marshal v) as [s|] eqn:Hs; [|discriminate Hs].
    destruct (proj1 (JSON_body_decodes_back
                       {| Response := 1%positive; Request := dashboard |} 201 v
                       serving recorder eq_refl) s Hs)
      as (rw' & err & Hrun & Hcalls & _ & Hback).
    exists s, rw', err. repeat split; [exact Hrun|exact Hcalls|].
    apply Hback. reflexivity.
  - destruct (marshal torn) as [s|] eqn:Hs; [|discriminate Hs].
    destruct (proj1 (JSON_body_decodes_back
                       {| Response := 1%positive; Request := dashboard |} 200 torn
                       serving recorder eq_refl) s Hs)
      as (rw' & err & Hrun & _ & Hback & _).
    exists s, rw', err. repeat split; [|exact Hrun|exact Hback].
    injection Hs as <-. reflexivity.
  - apply (proj2 (JSON_body_decodes_back
                    {| Response := 1%positive; Request := dashboard |} 200
                    (Array [Unsupported "chan int"]) serving recorder eq_refl)).
    reflexivity.
Defined.

(** ** The Auth accessor *)

Lemma Auth_stored kit a st :
  Value (ctx (Request kit)) AuthKey = AnyAuth a ->
  Kit.Auth kit st = ([], st, Returned (Some a)).
Proof. intros H. unfold Kit.Auth. by rewrite H. Qed.

Lemma Auth_missing kit st :
  (forall a, Value (ctx (Request kit)) AuthKey <> AnyAuth a) ->
  Kit.Auth kit st =
    ([], {| errorHandler := errorHandler st;
            sinks := sinks st;
            warnings := warnings st ++ ["kit authentication not set"] |},
     Returned (Some DefaultAuth)).
Proof.
  intros H. unfold Kit.Auth.
  destruct (Value (ctx (Request kit)) AuthKey) as [|a|n] eqn:E;
    [reflexivity| |reflexivity].
  by destruct (H a).
Qed.

(** C6: the accessor always returns, without invocations, a non-nil [Auth];
    and on a kit whose request context holds no value under [AuthKey{}], or a
    value that is not an [Auth], it logs the warning "kit authentication not
    set", changes nothing else, and returns [DefaultAuth{}], whose [Check()]
    is false. *)
Theorem Auth_accessor_denies_by_default (kit : Kit) (st : World) :
  (exists a st', Kit.Auth kit st = ([], st', Returned (Some a)))
  /\ ((forall a, Value (ctx (Request kit)) AuthKey <> AnyAuth a) ->
      Kit.Auth kit st =
        ([], {| errorHandler := errorHandler st;
                sinks := sinks st;
                warnings := warnings st ++ ["kit authentication not set"] |},
         Returned (Some DefaultAuth))
      /\ Check DefaultAuth = false).
Proof.
  split.
  - destruct (Value (ctx (Request kit)) AuthKey) as [|a|n] eqn:E.
    + eexists _, _. apply Auth_missing. intros a. by rewrite E.
    + eexists _, _. by apply Auth_stored.
    + eexists _, _. apply Auth_missing. intros a. by rewrite E.
  - intros H. split; [by apply Auth_missing|reflexivity].
Qed.

Lemma Auth_accessor_denies_by_default_unwrapped :
  (Kit.Auth {| Response := 1%positive; Request := dashboard |} serving =
     ([], {| errorHandler := defaultErrorHandler;
             sinks := sinks serving;
             warnings := ["kit authentication not set"] |},
      Returned (Some DefaultAuth))
   /\ Check DefaultAuth = false)
  /\ (Kit.Auth {| Response := 1%positive; Request := mistyped |} serving =
        ([], {| errorHandler := defaultErrorHandler;
                sinks := sinks serving;
                warnings := ["kit authentication not set"] |},
         Returned (Some DefaultAuth))
      /\ Check DefaultAuth = false).
Proof.
  split.
  - apply (proj2 (Auth_accessor_denies_by_default
                    {| Response := 1%positive; Request := dashboard |} serving)).
    intros a. simpl. discriminate.
  - apply (proj2 (Auth_accessor_denies_by_default
                    {| Response := 1%positive; Request := mistyped |} serving)).
    intros a. simpl. discriminate.
Defined.

(** ** Redirect *)

Lemma Redirect_htmx fuel kit status url st rw :
  Header_Get (Header (Request kit)) "HX-Request" <> "" ->
  sinks st !! Response kit = Some rw ->
  Kit.Redirect (S fuel) kit status url st =
    ([], set_sink st (Response kit)
           {| HeaderMap := Header_Set (HeaderMap rw) "HX-Redirect" url;
              calls := calls rw ++ [CallHeaderSet "HX-Redirect" url;
                                    CallWriteHeader StatusSeeOther];
              on_write := on_write rw |},
     Returned None).
Proof.
  intros Hx H. simpl.
  destruct (Header_Get (Header (Request kit)) "HX-Request") as [|c s] eqn:E;
    [done|]. simpl.
  unfold bind, Header_Set_on, WriteHeader, ret.
  rewrite (on_sink_live _ _ _ _ H); simpl.
  rewrite (on_sink_live _ _ _ _ (set_sink_lookup _ _ _)); simpl.
  rewrite set_sink_twice. unfold received; simpl.
  by rewrite <- app_assoc.
Qed.

Lemma Redirect_plain_step fuel kit status url st :
  Header_Get (Header (Request kit)) "HX-Request" = "" ->
  Kit.Redirect (S fuel) kit status url st = Kit.Redirect fuel kit status url st.
Proof. intros Hx. simpl. by rewrite Hx. Qed.

Lemma Redirect_plain_exhausts fuel kit status url st :
  Header_Get (Header (Request kit)) "HX-Request" = "" ->
  Kit.Redirect fuel kit status url st = ([], st, Exhausted).
Proof.
  intros Hx. induction fuel as [|fuel IH]; [reflexivity|].
  by rewrite Redirect_plain_step.
Qed.

(** C3: on a request whose HX-Request header is non-empty, and with a live
    writer, [Redirect(status, url)] sets HX-Redirect to [url] on the writer's
    header map, then writes status 303, and returns nil, at every recursion
    budget of at least one call. On a request whose HX-Request header is
    empty or absent, a call of [Redirect] is the same call again, with the
    same arguments in the same world, so that no budget is enough for it to
    finish: it writes nothing and never returns. *)
Theorem Redirect_htmx_or_no_return (kit : Kit) (status : Z) (url : string)
    (st : World) (fuel : nat) :
  (Header_Get (Header (Request kit)) "HX-Request" <> "" ->
   forall rw, sinks st !! Response kit = Some rw ->
     exists rw',
       Kit.Redirect (S fuel) kit status url st
         = ([], set_sink st (Response kit) rw', Returned None)
       /\ calls rw' = calls rw ++ [CallHeaderSet "HX-Redirect" url; CallWriteHeader 303]
       /\ Header_Get (HeaderMap rw') "HX-Redirect" = url)
  /\ (Header_Get (Header (Request kit)) "HX-Request" = "" ->
      Kit.Redirect (S fuel) kit status url st = Kit.Redirect fuel kit status url st
      /\ Kit.Redirect fuel kit status url st = ([], st, Exhausted)).
Proof.
  split.
  - intros Hx rw H. eexists. split; [apply (Redirect_htmx _ _ _ _ _ _ Hx H)|].
    split; [reflexivity|apply Header_Get_Set].
  - intros Hx. split; [by apply Redirect_plain_step|by apply Redirect_plain_exhausts].
Qed.

Lemma Redirect_htmx_or_no_return_dashboard :
  (exists rw',
     Kit.Redirect 1 {| Response := 1%positive; Request := dashboard_htmx |}
         302 "/login" serving
       = ([], set_sink serving 1%positive rw', Returned None)
     /\ calls rw' = calls recorder ++ [CallHeaderSet "HX-Redirect" "/login";
                                       CallWriteHeader 303]
     /\ Header_Get (HeaderMap rw') "HX-Redirect" = "/login")
  /\ (Kit.Redirect 1000 {| Response := 1%positive; Request := dashboard |}
          302 "/login" serving
        = Kit.Redirect 999 {| Response := 1%positive; Request := dashboard |}
            302 "/login" serving
      /\ Kit.Redirect 999 {| Response := 1%positive; Request := dashboard |}
           302 "/login" serving = ([], serving, Exhausted)).
Proof.
  split.
  - apply (proj1 (Redirect_htmx_or_no_return
                    {| Response := 1%positive; Request := dashboard_htmx |}
                    302 "/login" serving 0) ltac:(vm_compute; discriminate) recorder).
    reflexivity.
  - apply (proj2 (Redirect_htmx_or_no_return
                    {| Response := 1%positive; Request := dashboard |}
                    302 "/login" serving 999)).
    reflexivity.
Defined.

(** ** The Handler adapter *)

Section Adapter.

Variable hostEH : nat -> Kit -> error -> host unit.

Lemma call_ErrorHandlerFunc_registered f kit e st :
  f <> nilFunc ->
  call_ErrorHandlerFunc hostEH f kit e st =
    ([InvokeErrorHandler f kit e],
     fst (as_host (call_ErrorHandlerFunc hostEH f kit e) st),
     snd (as_host (call_ErrorHandlerFunc hostEH f kit e) st)).
Proof.
  intros Hf. destruct f as [| |id]; [done| |]; unfold as_host;
    simpl; unfold invoke.
  - by destruct (as_host _ st).
  - by destruct (hostEH id kit e st).
Qed.

Lemma call_ErrorHandlerFunc_nil kit e st :
  call_ErrorHandlerFunc hostEH nilFunc kit e st =
    ([], st, Panicked "nil pointer dereference").
Proof. reflexivity. Qed.

Lemma Handler_failed h w r st st' e :
  h {| Response := w; Request := r |} st = (st', Returned (Some e)) ->
  errorHandler st' <> nilFunc ->
  Handler hostEH h w r st =
    ([InvokeHandler {| Response := w; Request := r |};
      InvokeErrorHandler (errorHandler st') {| Response := w; Request := r |} e],
     fst (as_host (call_ErrorHandlerFunc hostEH (errorHandler st')
                     {| Response := w; Request := r |} e) st'),
     snd (as_host (call_ErrorHandlerFunc hostEH (errorHandler st')
                     {| Response := w; Request := r |} e) st')).
Proof.
  intros Hh Hf. unfold Handler, bind, invoke, get_errorHandler. rewrite Hh. simpl.
  destruct (decide (errorHandler st' <> nilFunc)) as [_|Hn]; [|done].
  by rewrite (call_ErrorHandlerFunc_registered _ _ _ _ Hf).
Qed.

Lemma Handler_failed_unset h w r st st' e rw :
  h {| Response := w; Request := r |} st = (st', Returned (Some e)) ->
  errorHandler st' = nilFunc ->
  sinks st' !! w = Some rw ->
  Handler hostEH h w r st =
    ([InvokeHandler {| Response := w; Request := r |}],
     set_sink st' w (answered rw 500 "text/plain" (bytes_of (Error e))),
     Returned tt).
Proof.
  intros Hh Hf Hw. unfold Handler, bind, invoke, get_errorHandler. rewrite Hh. simpl.
  destruct (decide (errorHandler st' <> nilFunc)) as [Hn|_]; [done|].
  fold (bind (Kit.Text {| Response := w; Request := r |}
                StatusInternalServerError (Error e)) (fun _ => ret tt) st').
  unfold bind. rewrite Text_unfold.
  by rewrite (Bytes_live {| Response := w; Request := r |} _ _ _ _ Hw).
Qed.

Lemma Handler_succeeded h w r st st' :
  h {| Response := w; Request := r |} st = (st', Returned None) ->
  Handler hostEH h w r st =
    ([InvokeHandler {| Response := w; Request := r |}], st', Returned tt).
Proof. intros Hh. unfold Handler, bind, invoke. by rewrite Hh. Qed.

End Adapter.

Lemma default_errorHandler_live hostEH kit e st rw :
  sinks st !! Response kit = Some rw ->
  call_ErrorHandlerFunc hostEH defaultErrorHandler kit e st
    = ([InvokeErrorHandler defaultErrorHandler kit e],
       set_sink st (Response kit) (answered rw 500 "text/plain" (bytes_of (Error e))),
       Returned tt).
Proof.
  intros H. unfold call_ErrorHandlerFunc, invoke, as_host, bind.
  rewrite Text_unfold, (Bytes_live _ _ _ _ _ H). reflexivity.
Qed.

Lemma Handler_failed_default hostEH h w r st st' e rw :
  h {| Response := w; Request := r |} st = (st', Returned (Some e)) ->
  errorHandler st' = defaultErrorHandler ->
  sinks st' !! w = Some rw ->
  Handler hostEH h w r st
    = ([InvokeHandler {| Response := w; Request := r |};
        InvokeErrorHandler defaultErrorHandler {| Response := w; Request := r |} e],
       set_sink st' w (answered rw 500 "text/plain" (bytes_of (Error e))),
       Returned tt).
Proof.
  intros Hh Hf Hw.
  rewrite (Handler_failed hostEH h w r st st' e Hh) by (rewrite Hf; discriminate).
  rewrite Hf. unfold as_host.
  by rewrite (default_errorHandler_live hostEH {| Response := w; Request := r |} e st' rw Hw).
Qed.

Lemma call_ErrorHandlerFunc_host hostEH id kit e st :
  call_ErrorHandlerFunc hostEH (hostFunc id) kit e st
    = ([InvokeErrorHandler (hostFunc id) kit e],
       fst (hostEH id kit e st), snd (hostEH id kit e st)).
Proof. simpl. unfold invoke. by destruct (hostEH id kit e st). Qed.

Lemma default_errorHandler_nil hostEH kit e st :
  sinks st !! Response kit = None ->
  call_ErrorHandlerFunc hostEH defaultErrorHandler kit e st
    = ([InvokeErrorHandler defaultErrorHandler kit e], st,
       Panicked "nil pointer dereference").
Proof.
  intros H. unfold call_ErrorHandlerFunc, invoke, as_host, bind.
  rewrite Text_unfold, (Bytes_nil _ _ _ _ H). reflexivity.
Qed.

Lemma Handler_failed_host hostEH h w r st st' e id :
  h {| Response := w; Request := r |} st = (st', Returned (Some e)) ->
  errorHandler st' = hostFunc id ->
  Handler hostEH h w r st
    = ([InvokeHandler {| Response := w; Request := r |};
        InvokeErrorHandler (hostFunc id) {| Response := w; Request := r |} e],
       fst (hostEH id {| Response := w; Request := r |} e st'),
       snd (hostEH id {| Response := w; Request := r |} e st')).
Proof.
  intros Hh Hf.
  rewrite (Handler_failed hostEH h w r st st' e Hh) by (rewrite Hf; discriminate).
  rewrite Hf. unfold as_host. by rewrite call_ErrorHandlerFunc_host.
Qed.

Lemma Handler_failed_default_nil hostEH h w r st st' e :
  h {| Response := w; Request := r |} st = (st', Returned (Some e)) ->
  errorHandler st' = defaultErrorHandler ->
  sinks st' !! w = None ->
  Handler hostEH h w r st
    = ([InvokeHandler {| Response := w; Request := r |};
        InvokeErrorHandler defaultErrorHandler {| Response := w; Request := r |} e],
       st', Panicked "nil pointer dereference").
Proof.
  intros Hh Hf Hw.
  rewrite (Handler_failed hostEH h w r st st' e Hh) by (rewrite Hf; discriminate).
  rewrite Hf. unfold as_host.
  by rewrite (default_errorHandler_nil hostEH {| Response := w; Request := r |} e st' Hw).
Qed.

(** C1: when the wrapped handler returns an error [e], the adapter runs the
    error handler that is registered at that moment, once, on the world the
    handler left, with the very kit it built from the writer and the request
    and with [e], and ends as that run ends. For a function of the host the
    run is the host's function applied to that kit, that error and that
    world; for the package's default it is the answer 500 with the message
    on the kit's writer (a panic if the writer is nil). The adapter's
    invocations are the handler and then the error handler, and nothing
    else. When the wrapped handler returns nil, the adapter invokes nothing
    further and leaves the world as the handler left it. *)
Theorem Handler_invokes_errorHandler_once
    (hostEH : nat -> Kit -> error -> host unit) (h : HandlerFunc)
    (w : ref) (r : http_Request) (st st' : World) :
  let kit := {| Response := w; Request := r |} in
  (forall e, h kit st = (st', Returned (Some e)) ->
     (forall id, errorHandler st' = hostFunc id ->
        Handler hostEH h w r st
          = ([InvokeHandler kit; InvokeErrorHandler (hostFunc id) kit e],
             fst (hostEH id kit e st'), snd (hostEH id kit e st')))
     /\ (errorHandler st' = defaultErrorHandler ->
         (forall rw, sinks st' !! w = Some rw ->
            Handler hostEH h w r st
              = ([InvokeHandler kit; InvokeErrorHandler defaultErrorHandler kit e],
                 set_sink st' w (answered rw 500 "text/plain" (bytes_of (Error e))),
                 Returned tt)
            /\ calls (answered rw 500 "text/plain" (bytes_of (Error e)))
                 = calls rw ++ [CallWriteHeader 500;
                                CallHeaderSet "Content-Type" "text/plain";
                                CallWrite (bytes_of (Error e))
                                  (on_write rw
                                     (calls rw ++ [CallWriteHeader 500;
                                                   CallHeaderSet "Content-Type" "text/plain"])
                                     (bytes_of (Error e)))])
         /\ (sinks st' !! w = None ->
             Handler hostEH h w r st
               = ([InvokeHandler kit; InvokeErrorHandler defaultErrorHandler kit e],
                  st', Panicked "nil pointer dereference")))
     /\ (errorHandler st' <> nilFunc ->
         errorHandler_calls (fst (fst (Handler hostEH h w r st)))
           = [(errorHandler st', kit, e)]))
  /\ (h kit st = (st', Returned None) ->
      Handler hostEH h w r st = ([InvokeHandler kit], st', Returned tt)).
Proof.
  intros kit. split.
  - intros e Hh. split; [|split].
    + intros id Hf. apply (Handler_failed_host hostEH h w r st st' e id Hh Hf).
    + intros Hf. split.
      * intros rw Hw.
        split; [apply (Handler_failed_default hostEH h w r st st' e rw Hh Hf Hw)|].
        apply calls_answered.
      * intros Hw. apply (Handler_failed_default_nil hostEH h w r st st' e Hh Hf Hw).
    + intros Hf. by rewrite (Handler_failed hostEH h w r st st' e Hh Hf).
  - apply Handler_succeeded.
Qed.

Lemma Handler_invokes_errorHandler_once_served :
  let kit := {| Response := 1%positive; Request := dashboard |} in
  Handler gateways failing 1%positive dashboard hosted
    = ([InvokeHandler kit; InvokeErrorHandler (hostFunc 1) kit boom],
       set_sink hosted 1%positive (answered recorder 503 "text/plain" (bytes_of "upstream")),
       Returned tt)
  /\ Handler gateways failing 1%positive dashboard serving
       = ([InvokeHandler kit; InvokeErrorHandler defaultErrorHandler kit boom],
          set_sink serving 1%positive (answered recorder 500 "text/plain" (bytes_of "boom")),
          Returned tt)
  /\ errorHandler_calls (fst (fst (Handler gateways failing 1%positive dashboard hosted)))
       = [(hostFunc 1, kit, boom)]
  /\ Handler gateways greeting 1%positive dashboard serving
       = ([InvokeHandler kit],
          set_sink serving 1%positive (answered recorder 200 "text/plain" (bytes_of "hello")),
          Returned tt).
Proof.
  intros kit.
  destruct (Handler_invokes_errorHandler_once gateways failing
              1%positive dashboard hosted hosted) as [Hhost _].
  destruct (Hhost boom eq_refl) as (Hrun & _ & Hcalls).
  destruct (Handler_invokes_errorHandler_once gateways failing
              1%positive dashboard serving serving) as [Hdef _].
  destruct (Hdef boom eq_refl) as (_ & Hdefault & _).
  destruct (Hdefault eq_refl) as [Hlive _].
  split; [|split; [|split]].
  - rewrite (Hrun 1%nat eq_refl). vm_compute; reflexivity.
  - apply (proj1 (Hlive recorder eq_refl)).
  - apply Hcalls. discriminate.
  - apply (proj2 (Handler_invokes_errorHandler_once gateways greeting
                    1%positive dashboard serving
                    (set_sink serving 1%positive
                       (answered recorder 200 "text/plain" (bytes_of "hello"))))).
    vm_compute; reflexivity.
Defined.

(** ** The authentication middleware *)

Section Middleware.

Variable hostEH : nat -> Kit -> error -> host unit.
Variables (config : AuthenticationConfig) (next : http_Handler).
Variables (w : ref) (r : http_Request).

Lemma WithAuthentication_probe_failed fuel strict st st' auth e :
  AuthFunc config w r st = (st', Returned (auth, Some e)) ->
  errorHandler st' <> nilFunc ->
  WithAuthentication hostEH fuel config strict next w r st =
    ([InvokeAuthFunc w r;
      InvokeErrorHandler (errorHandler st') {| Response := w; Request := r |} e],
     fst (as_host (call_ErrorHandlerFunc hostEH (errorHandler st')
                     {| Response := w; Request := r |} e) st'),
     snd (as_host (call_ErrorHandlerFunc hostEH (errorHandler st')
                     {| Response := w; Request := r |} e) st')).
Proof.
  intros Hp Hf. unfold WithAuthentication, bind, invoke, get_errorHandler.
  rewrite Hp. simpl.
  by rewrite (call_ErrorHandlerFunc_registered _ _ _ _ _ Hf).
Qed.

Lemma WithAuthentication_probe_failed_unset fuel strict st st' auth e :
  AuthFunc config w r st = (st', Returned (auth, Some e)) ->
  errorHandler st' = nilFunc ->
  WithAuthentication hostEH fuel config strict next w r st =
    ([InvokeAuthFunc w r], st', Panicked "nil pointer dereference").
Proof.
  intros Hp Hf. unfold WithAuthentication, bind, invoke, get_errorHandler.
  rewrite Hp. simpl. by rewrite Hf.
Qed.

Lemma WithAuthentication_redirects_htmx fuel strict st st' a rw :
  AuthFunc config w r st = (st', Returned (Some a, None)) ->
  must_redirect config strict a r = true ->
  Header_Get (Header r) "HX-Request" <> "" ->
  sinks st' !! w = Some rw ->
  WithAuthentication hostEH (S fuel) config strict next w r st =
    ([InvokeAuthFunc w r],
     set_sink st' w
       {| HeaderMap := Header_Set (HeaderMap rw) "HX-Redirect" (RedirectURL config);
          calls := calls rw ++ [CallHeaderSet "HX-Redirect" (RedirectURL config);
                                CallWriteHeader StatusSeeOther];
          on_write := on_write rw |},
     Returned tt).
Proof.
  intros Hp Hc Hx Hw. unfold must_redirect in Hc.
  destruct strict; [|done]. simpl in Hc.
  unfold WithAuthentication, bind, invoke. rewrite Hp.
  cbn [fst snd andb ret]. rewrite Hc.
  by rewrite (Redirect_htmx fuel {| Response := w; Request := r |} _ _ st' rw Hx Hw).
Qed.

Lemma WithAuthentication_redirects_plain fuel strict st st' a :
  AuthFunc config w r st = (st', Returned (Some a, None)) ->
  must_redirect config strict a r = true ->
  Header_Get (Header r) "HX-Request" = "" ->
  WithAuthentication hostEH fuel config strict next w r st =
    ([InvokeAuthFunc w r], st', Exhausted).
Proof.
  intros Hp Hc Hx. unfold must_redirect in Hc.
  destruct strict; [|done]. simpl in Hc.
  unfold WithAuthentication, bind, invoke. rewrite Hp.
  cbn [fst snd andb ret]. rewrite Hc.
  by rewrite (Redirect_plain_exhausts fuel {| Response := w; Request := r |} _ _ st' Hx).
Qed.

Lemma WithAuthentication_delegates fuel strict st st' a :
  AuthFunc config w r st = (st', Returned (Some a, None)) ->
  must_redirect config strict a r = false ->
  let r' := WithContext r (WithValue (ctx r) AuthKey (AnyAuth a)) in
  WithAuthentication hostEH fuel config strict next w r st =
    ([InvokeAuthFunc w r; InvokeNext w r'], fst (next w r' st'), snd (next w r' st')).
Proof.
  intros Hp Hc r'. unfold must_redirect in Hc.
  unfold WithAuthentication, bind, invoke. rewrite Hp.
  destruct strict; simpl in Hc |- *; [rewrite Hc|];
    fold r'; by destruct (next w r' st').
Qed.

End Middleware.

Lemma WithAuthentication_probe_failed_host hostEH config next w r fuel strict
    st st' auth e id :
  AuthFunc config w r st = (st', Returned (auth, Some e)) ->
  errorHandler st' = hostFunc id ->
  WithAuthentication hostEH fuel config strict next w r st
    = ([InvokeAuthFunc w r;
        InvokeErrorHandler (hostFunc id) {| Response := w; Request := r |} e],
       fst (hostEH id {| Response := w; Request := r |} e st'),
       snd (hostEH id {| Response := w; Request := r |} e st')).
Proof.
  intros Hp Hf.
  rewrite (WithAuthentication_probe_failed hostEH config next w r fuel strict
             st st' auth e Hp) by (rewrite Hf; discriminate).
  rewrite Hf. unfold as_host. by rewrite call_ErrorHandlerFunc_host.
Qed.

Lemma WithAuthentication_probe_failed_default hostEH config next w r fuel strict
    st st' auth e rw :
  AuthFunc config w r st = (st', Returned (auth, Some e)) ->
  errorHandler st' = defaultErrorHandler ->
  sinks st' !! w = Some rw ->
  WithAuthentication hostEH fuel config strict next w r st
    = ([InvokeAuthFunc w r;
        InvokeErrorHandler defaultErrorHandler {| Response := w; Request := r |} e],
       set_sink st' w (answered rw 500 "text/plain" (bytes_of (Error e))),
       Returned tt).
Proof.
  intros Hp Hf Hw.
  rewrite (WithAuthentication_probe_failed hostEH config next w r fuel strict
             st st' auth e Hp) by (rewrite Hf; discriminate).
  rewrite Hf. unfold as_host.
  by rewrite (default_errorHandler_live hostEH {| Response := w; Request := r |} e st' rw Hw).
Qed.

Lemma WithAuthentication_probe_failed_default_nil hostEH config next w r fuel strict
    st st' auth e :
  AuthFunc config w r st = (st', Returned (auth, Some e)) ->
  errorHandler st' = defaultErrorHandler ->
  sinks st' !! w = None ->
  WithAuthentication hostEH fuel config strict next w r st
    = ([InvokeAuthFunc w r;
        InvokeErrorHandler defaultErrorHandler {| Response := w; Request := r |} e],
       st', Panicked "nil pointer dereference").
Proof.
  intros Hp Hf Hw.
  rewrite (WithAuthentication_probe_failed hostEH config next w r fuel strict
             st st' auth e Hp) by (rewrite Hf; discriminate).
  rewrite Hf. unfold as_host.
  by rewrite (default_errorHandler_nil hostEH {| Response := w; Request := r |} e st' Hw).
Qed.

(** C5: when the probe returns an error [e], the middleware runs the error
    handler that is registered at that moment on the world the probe left,
    with a kit built from the current writer and the request as it came in
    (nothing is attached to its context) and with [e], and ends as that run
    ends: for a function of the host, the host's function applied to that
    kit, error and world; for the package's default, the answer 500 with the
    probe's message on the writer (a panic if the writer is nil). The
    invocations are the probe and the error handler; the wrapped handler is
    not among them, and the run is the same whatever the wrapped handler
    is. *)
Theorem WithAuthentication_probe_error_is_terminal
    (hostEH : nat -> Kit -> error -> host unit) (fuel : nat)
    (config : AuthenticationConfig) (strict : bool) (next : http_Handler)
    (w : ref) (r : http_Request) (st st' : World) (auth : Auth) (e : error) :
  AuthFunc config w r st = (st', Returned (auth, Some e)) ->
  let kit := {| Response := w; Request := r |} in
  (forall id, errorHandler st' = hostFunc id ->
     WithAuthentication hostEH fuel config strict next w r st
       = ([InvokeAuthFunc w r; InvokeErrorHandler (hostFunc id) kit e],
          fst (hostEH id kit e st'), snd (hostEH id kit e st')))
  /\ (errorHandler st' = defaultErrorHandler ->
      (forall rw, sinks st' !! w = Some rw ->
         WithAuthentication hostEH fuel config strict next w r st
           = ([InvokeAuthFunc w r; InvokeErrorHandler defaultErrorHandler kit e],
              set_sink st' w (answered rw 500 "text/plain" (bytes_of (Error e))),
              Returned tt)
         /\ calls (answered rw 500 "text/plain" (bytes_of (Error e)))
              = calls rw ++ [CallWriteHeader 500;
                             CallHeaderSet "Content-Type" "text/plain";
                             CallWrite (bytes_of (Error e))
                               (on_write rw
                                  (calls rw ++ [CallWriteHeader 500;
                                                CallHeaderSet "Content-Type" "text/plain"])
                                  (bytes_of (Error e)))])
      /\ (sinks st' !! w = None ->
          WithAuthentication hostEH fuel config strict next w r st
            = ([InvokeAuthFunc w r; InvokeErrorHandler defaultErrorHandler kit e],
               st', Panicked "nil pointer dereference")))
  /\ (errorHandler st' <> nilFunc ->
      errorHandler_calls (fst (fst (WithAuthentication hostEH fuel config strict next w r st)))
        = [(errorHandler st', kit, e)]
      /\ next_calls (fst (fst (WithAuthentication hostEH fuel config strict next w r st)))
           = []
      /\ Value (ctx (Request kit)) AuthKey = Value (ctx r) AuthKey
      /\ forall next',
           WithAuthentication hostEH fuel config strict next' w r st
             = WithAuthentication hostEH fuel config strict next w r st).
Proof.
  intros Hp kit. split; [|split].
  - intros id Hf.
    apply (WithAuthentication_probe_failed_host hostEH config next w r fuel strict
             st st' auth e id Hp Hf).
  - intros Hf. split.
    + intros rw Hw. split; [|apply calls_answered].
      apply (WithAuthentication_probe_failed_default hostEH config next w r fuel strict
               st st' auth e rw Hp Hf Hw).
    + intros Hw.
      apply (WithAuthentication_probe_failed_default_nil hostEH config next w r fuel strict
               st st' auth e Hp Hf Hw).
  - intros Hf.
    rewrite (WithAuthentication_probe_failed hostEH config next w r fuel strict
               st st' auth e Hp Hf).
    do 3 (split; [reflexivity|]).
    intros next'.
    by rewrite (WithAuthentication_probe_failed hostEH config next' w r fuel strict
                  st st' auth e Hp Hf).
Qed.

Lemma WithAuthentication_probe_error_is_terminal_boom :
  let kit := {| Response := 1%positive; Request := dashboard |} in
  WithAuthentication gateways 3 (to_login broken_probe) true whoami
      1%positive dashboard hosted
    = ([InvokeAuthFunc 1%positive dashboard; InvokeErrorHandler (hostFunc 1) kit boom],
       set_sink hosted 1%positive (answered recorder 503 "text/plain" (bytes_of "upstream")),
       Returned tt)
  /\ WithAuthentication gateways 3 (to_login broken_probe) true whoami
         1%positive dashboard serving
       = ([InvokeAuthFunc 1%positive dashboard;
           InvokeErrorHandler defaultErrorHandler kit boom],
          set_sink serving 1%positive (answered recorder 500 "text/plain" (bytes_of "boom")),
          Returned tt)
  /\ next_calls (fst (fst (WithAuthentication gateways 3 (to_login broken_probe) true
                             whoami 1%positive dashboard hosted))) = [].
Proof.
  intros kit.
  destruct (WithAuthentication_probe_error_is_terminal gateways 3
              (to_login broken_probe) true whoami 1%positive dashboard
              hosted hosted None boom eq_refl) as (Hhost & _ & Hinv).
  destruct (WithAuthentication_probe_error_is_terminal gateways 3
              (to_login broken_probe) true whoami 1%positive dashboard
              serving serving None boom eq_refl) as (_ & Hdefault & _).
  split; [|split].
  - rewrite (Hhost 1%nat eq_refl). vm_compute; reflexivity.
  - apply (proj1 (proj1 (Hdefault eq_refl) recorder eq_refl)).
  - apply (proj1 (proj2 (Hinv ltac:(discriminate)))).
Defined.

(** ** An unset error handler *)

(** C10: after [UseErrorHandler(nil)], and as long as the handler or probe
    that runs leaves [errorHandler] nil: the Handler adapter, on an error of
    the wrapped handler, invokes nothing further and itself makes the live
    writer receive WriteHeader(500), Header().Set(Content-Type, text/plain)
    and a Write of the error's message; the middleware, on an error of the
    probe, calls the nil function: it panics right after the probe, having
    written nothing and invoked nothing else. *)
Theorem nil_errorHandler_fallback_only_in_Handler
    (hostEH : nat -> Kit -> error -> host unit) (h : HandlerFunc) (fuel : nat)
    (config : AuthenticationConfig) (strict : bool) (next : http_Handler)
    (w : ref) (r : http_Request) (st0 st' : World) (e : error) :
  let st := snd (fst (UseErrorHandler nilFunc st0)) in
  errorHandler st = nilFunc
  /\ (h {| Response := w; Request := r |} st = (st', Returned (Some e)) ->
      errorHandler st' = nilFunc ->
      forall rw, sinks st' !! w = Some rw ->
        exists rw' err,
          Handler hostEH h w r st
            = ([InvokeHandler {| Response := w; Request := r |}],
               set_sink st' w rw', Returned tt)
          /\ calls rw' = calls rw ++ [CallWriteHeader 500;
                                      CallHeaderSet "Content-Type" "text/plain";
                                      CallWrite (bytes_of (Error e)) err])
  /\ (forall auth,
        AuthFunc config w r st = (st', Returned (auth, Some e)) ->
        errorHandler st' = nilFunc ->
        WithAuthentication hostEH fuel config strict next w r st
          = ([InvokeAuthFunc w r], st', Panicked "nil pointer dereference")).
Proof.
  intros st. split; [reflexivity|]. split.
  - intros Hh Hf rw Hw. eexists _, _.
    split; [apply (Handler_failed_unset hostEH _ _ _ _ _ _ _ Hh Hf Hw)|].
    apply calls_answered.
  - intros auth Hp Hf.
    apply (WithAuthentication_probe_failed_unset hostEH _ _ _ _ _ _ _ _ _ _ Hp Hf).
Qed.

Lemma nil_errorHandler_fallback_only_in_Handler_boom :
  let st := snd (fst (UseErrorHandler nilFunc serving)) in
  errorHandler st = nilFunc
  /\ (exists rw' err,
        Handler hostHandlers failing 1%positive dashboard st
          = ([InvokeHandler {| Response := 1%positive; Request := dashboard |}],
             set_sink st 1%positive rw', Returned tt)
        /\ calls rw' = calls recorder ++ [CallWriteHeader 500;
                                          CallHeaderSet "Content-Type" "text/plain";
                                          CallWrite (bytes_of (Error boom)) err])
  /\ WithAuthentication hostHandlers 3 (to_login broken_probe) true whoami
         1%positive dashboard st
       = ([InvokeAuthFunc 1%positive dashboard], st, Panicked "nil pointer dereference").
Proof.
  intros st.
  destruct (nil_errorHandler_fallback_only_in_Handler hostHandlers failing 3
              (to_login broken_probe) true whoami 1%positive dashboard
              serving st boom) as (H0 & H1 & H2).
  split; [exact H0|]. split.
  - apply H1 with (rw := recorder); reflexivity.
  - apply (H2 None); reflexivity.
Defined.

(** ** Strict mode *)

(** C2, at a request the claim covers but the code does not serve: strict
    mode, the probe reports a guest, the path [/dashboard] differs from the
    target [/login], and the request has no HX-Request header. The
    middleware invokes the probe and then [Redirect], which calls itself
    without end: at every recursion budget the run is still unfinished, the
    world is as the probe left it (no HX-Redirect or Location header, no
    status), and the wrapped handler has not been invoked. *)
Theorem strict_guest_browser_request_gets_no_redirect
    (hostEH : nat -> Kit -> error -> host unit) (fuel : nat)
    (next : http_Handler) (st : World) :
  WithAuthentication hostEH fuel (to_login (probe guest)) true next
      1%positive dashboard st
    = ([InvokeAuthFunc 1%positive dashboard], st, Exhausted).
Proof.
  apply (WithAuthentication_redirects_plain hostEH _ next _ _ fuel true st st
           (HostAuth 1 false)); reflexivity.
Qed.

(** In strict mode, when the result reports not-authenticated, the path
    differs from the target and the request carries a non-empty HX-Request
    header, the middleware sets HX-Redirect to the target on the live
    writer, writes status 303 and returns; it invokes the probe and nothing
    else, so the wrapped handler does not run. *)
Theorem WithAuthentication_strict_htmx_redirect
    (hostEH : nat -> Kit -> error -> host unit) (fuel : nat)
    (config : AuthenticationConfig) (next : http_Handler)
    (w : ref) (r : http_Request) (st st' : World) (a : AuthValue)
    (rw : http_ResponseWriter) :
  AuthFunc config w r st = (st', Returned (Some a, None)) ->
  Check a = false ->
  URL_Path r <> RedirectURL config ->
  Header_Get (Header r) "HX-Request" <> "" ->
  sinks st' !! w = Some rw ->
  exists t rw',
    WithAuthentication hostEH (S fuel) config true next w r st
      = (t, set_sink st' w rw', Returned tt)
    /\ t = [InvokeAuthFunc w r]
    /\ next_calls t = []
    /\ calls rw' = calls rw ++ [CallHeaderSet "HX-Redirect" (RedirectURL config);
                                CallWriteHeader 303]
    /\ Header_Get (HeaderMap rw') "HX-Redirect" = RedirectURL config.
Proof.
  intros Hp Hc Hpath Hx Hw. eexists _, _.
  split.
  - apply (WithAuthentication_redirects_htmx hostEH _ next _ _ fuel true _ _ a rw Hp);
      [|exact Hx|exact Hw].
    unfold must_redirect. rewrite Hc. simpl.
    apply negb_true_iff. by apply String.eqb_neq.
  - do 3 (split; [reflexivity|]). apply Header_Get_Set.
Qed.

Lemma WithAuthentication_strict_htmx_redirect_dashboard :
  exists t rw',
    WithAuthentication hostHandlers 1 (to_login (probe guest)) true whoami
        1%positive dashboard_htmx serving
      = (t, set_sink serving 1%positive rw', Returned tt)
    /\ t = [InvokeAuthFunc 1%positive dashboard_htmx]
    /\ next_calls t = []
    /\ calls rw' = calls recorder ++ [CallHeaderSet "HX-Redirect" "/login";
                                      CallWriteHeader 303]
    /\ Header_Get (HeaderMap rw') "HX-Redirect" = "/login".
Proof.
  apply (WithAuthentication_strict_htmx_redirect hostHandlers 0
           (to_login (probe guest)) whoami 1%positive dashboard_htmx
           serving serving (HostAuth 1 false) recorder);
    [reflexivity|reflexivity|discriminate|vm_compute; discriminate|reflexivity].
Defined.

(** When the probe succeeds with a result and the middleware is not strict,
    or the result reports authenticated, or the path equals the target, the
    middleware writes nothing itself: it invokes the probe and then the
    wrapped handler, once, on the same writer and on the request with the
    result stored under [AuthKey{}], and ends as that handler ends. On that
    request the accessor returns the stored result, without a warning. *)
Theorem WithAuthentication_delegates_with_result
    (hostEH : nat -> Kit -> error -> host unit) (fuel : nat)
    (config : AuthenticationConfig) (strict : bool) (next : http_Handler)
    (w : ref) (r : http_Request) (st st' : World) (a : AuthValue) :
  AuthFunc config w r st = (st', Returned (Some a, None)) ->
  strict = false \/ Check a = true \/ URL_Path r = RedirectURL config ->
  let r' := WithContext r (WithValue (ctx r) AuthKey (AnyAuth a)) in
  exists t st'' o,
    WithAuthentication hostEH fuel config strict next w r st = (t, st'', o)
    /\ t = [InvokeAuthFunc w r; InvokeNext w r']
    /\ next_calls t = [(w, r')]
    /\ next w r' st' = (st'', o)
    /\ (forall w' stx,
          Kit.Auth {| Response := w'; Request := r' |} stx
            = ([], stx, Returned (Some a))).
Proof.
  intros Hp Hc r'. eexists _, _, _.
  split.
  - apply (WithAuthentication_delegates hostEH _ next _ _ fuel strict _ _ a Hp).
    unfold must_redirect. destruct Hc as [-> | [-> | ->]]; [done| |].
    + by destruct strict.
    + rewrite String.eqb_refl. by destruct strict, (Check a).
  - do 2 (split; [reflexivity|]).
    split; [apply surjective_pairing|].
    intros w' stx. apply Auth_stored. simpl.
    by destruct (decide (AuthKey = AuthKey)).
Qed.

Lemma WithAuthentication_delegates_with_result_member :
  let r' := WithContext dashboard (WithValue (ctx dashboard) AuthKey (AnyAuth (HostAuth 2 true))) in
  exists t st'' o,
    WithAuthentication hostHandlers 3 (to_login (probe member)) true whoami
        1%positive dashboard serving = (t, st'', o)
    /\ t = [InvokeAuthFunc 1%positive dashboard; InvokeNext 1%positive r']
    /\ next_calls t = [(1%positive, r')]
    /\ whoami 1%positive r' serving = (st'', o)
    /\ (forall w' stx,
          Kit.Auth {| Response := w'; Request := r' |} stx
            = ([], stx, Returned (Some (HostAuth 2 true)))).
Proof.
  apply (WithAuthentication_delegates_with_result hostHandlers 3
           (to_login (probe member)) true whoami 1%positive dashboard
           serving serving (HostAuth 2 true));
    [reflexivity|right; left; reflexivity].
Defined.

(** ** Whole requests *)

(** A signed-in user asks for [/dashboard] behind the strict middleware: the
    wrapped handler runs and, through the accessor, answers "member". *)
Example member_sees_dashboard :
  WithAuthentication hostHandlers 3 (to_login (probe member)) true whoami
      1%positive dashboard serving
    = ([InvokeAuthFunc 1%positive dashboard;
        InvokeNext 1%positive
          (WithContext dashboard [(AuthKey, AnyAuth (HostAuth 2 true))])],
       set_sink serving 1%positive (answered recorder 200 "text/plain" (bytes_of "member")),
       Returned tt).
Proof. vm_compute; reflexivity. Qed.

(** A guest asks for the redirect target itself: no redirect, the wrapped
    handler runs and sees the guest. *)
Example guest_sees_login :
  WithAuthentication hostHandlers 3 (to_login (probe guest)) true whoami
      1%positive login serving
    = ([InvokeAuthFunc 1%positive login;
        InvokeNext 1%positive
          (WithContext login [(AuthKey, AnyAuth (HostAuth 1 false))])],
       set_sink serving 1%positive (answered recorder 200 "text/plain" (bytes_of "guest")),
       Returned tt).
Proof. vm_compute; reflexivity. Qed.

(** A probe that succeeds with a nil result: strict mode panics on
    [auth.Check()]; otherwise nil is stored, and the accessor of the wrapped
    handler falls back to [DefaultAuth{}] with a warning. *)
Example nil_result_strict :
  WithAuthentication hostHandlers 3 (to_login (probe None)) true whoami
      1%positive dashboard serving
    = ([InvokeAuthFunc 1%positive dashboard], serving,
       Panicked "nil pointer dereference").
Proof. reflexivity. Qed.

Example nil_result_lenient :
  WithAuthentication hostHandlers 3 (to_login (probe None)) false whoami
      1%positive dashboard serving
    = ([InvokeAuthFunc 1%positive dashboard;
        InvokeNext 1%positive (WithContext dashboard [(AuthKey, AnyNil)])],
       {| errorHandler := defaultErrorHandler;
          sinks := {[ 1%positive := answered recorder 200 "text/plain" (bytes_of "guest") ]};
          warnings := ["kit authentication not set"] |},
       Returned tt).
Proof. vm_compute; reflexivity. Qed.

(** A host error handler registered with [UseErrorHandler] is the one the
    adapter calls. *)
Example registered_handler_is_used :
  Handler hostHandlers failing 1%positive dashboard
      (snd (fst (UseErrorHandler (hostFunc 0) serving)))
    = ([InvokeHandler {| Response := 1%positive; Request := dashboard |};
        InvokeErrorHandler (hostFunc 0)
          {| Response := 1%positive; Request := dashboard |} boom],
       set_sink (snd (fst (UseErrorHandler (hostFunc 0) serving))) 1%positive
         (answered recorder 502 "text/plain" (bytes_of "bad gateway")),
       Returned tt).
Proof. vm_compute; reflexivity. Qed.

(** * Further properties *)

(** ** Panics *)

(** Neither the adapter nor the middleware recovers from a panic: when the
    wrapped handler panics, the adapter panics with the same value right
    after that one invocation, and no error handler runs; when the probe
    panics, the middleware panics right after it, and neither an error
    handler nor the wrapped handler runs. The world is as the panicking
    function left it. *)
Theorem panics_are_not_recovered
    (hostEH : nat -> Kit -> error -> host unit) (h : HandlerFunc) (fuel : nat)
    (config : AuthenticationConfig) (strict : bool) (next : http_Handler)
    (w : ref) (r : http_Request) (st st' : World) (why : string) :
  (h {| Response := w; Request := r |} st = (st', Panicked why) ->
   Handler hostEH h w r st
     = ([InvokeHandler {| Response := w; Request := r |}], st', Panicked why))
  /\ (AuthFunc config w r st = (st', Panicked why) ->
      WithAuthentication hostEH fuel config strict next w r st
        = ([InvokeAuthFunc w r], st', Panicked why)).
Proof.
  split; intros H.
  - unfold Handler, bind, invoke. by rewrite H.
  - unfold WithAuthentication, bind, invoke. by rewrite H.
Qed.

Lemma panics_are_not_recovered_crashing :
  Handler hostHandlers crashing 1%positive dashboard serving
    = ([InvokeHandler {| Response := 1%positive; Request := dashboard |}],
       serving, Panicked "index out of range")
  /\ WithAuthentication hostHandlers 3 (to_login crashing_probe) true whoami
         1%positive dashboard serving
       = ([InvokeAuthFunc 1%positive dashboard], serving, Panicked "index out of range").
Proof.
  destruct (panics_are_not_recovered hostHandlers crashing 3
              (to_login crashing_probe) true whoami 1%positive dashboard
              serving serving "index out of range") as [H1 H2].
  split; [apply H1|apply H2]; reflexivity.
Defined.

(** ** Errors after the answer has begun *)

Lemma status_writes_app l1 l2 :
  status_writes (l1 ++ l2) = (status_writes l1 + status_writes l2)%nat.
Proof. unfold status_writes. by rewrite List.filter_app, length_app. Qed.

(** The adapter's error path does not look at what the handler has already
    sent. Whatever calls the writer received from a handler that then
    returns an error, the default error handler adds WriteHeader(500),
    Header().Set(Content-Type, text/plain) and a Write of the message after
    them: the writer has received one more status write than before, a
    second one if the handler had written its own. *)
Theorem Handler_error_after_answer
    (hostEH : nat -> Kit -> error -> host unit) (h : HandlerFunc)
    (w : ref) (r : http_Request) (st st' : World) (e : error)
    (rw : http_ResponseWriter) :
  h {| Response := w; Request := r |} st = (st', Returned (Some e)) ->
  errorHandler st' = defaultErrorHandler ->
  sinks st' !! w = Some rw ->
  exists rw' err,
    Handler hostEH h w r st
      = ([InvokeHandler {| Response := w; Request := r |};
          InvokeErrorHandler defaultErrorHandler {| Response := w; Request := r |} e],
         set_sink st' w rw', Returned tt)
    /\ calls rw' = calls rw ++ [CallWriteHeader 500;
                                CallHeaderSet "Content-Type" "text/plain";
                                CallWrite (bytes_of (Error e)) err]
    /\ status_writes (calls rw') = S (status_writes (calls rw)).
Proof.
  intros Hh Hf Hw. eexists _, _.
  split; [apply (Handler_failed_default hostEH h w r st st' e rw Hh Hf Hw)|].
  split; [apply calls_answered|].
  rewrite calls_answered, status_writes_app.
  match goal with
  | |- (_ + status_writes ?l)%nat = _ =>
      change (status_writes l) with 1%nat
  end.
  lia.
Qed.

Lemma Handler_error_after_answer_half_done :
  exists rw' err,
    Handler hostHandlers half_done 1%positive dashboard serving
      = ([InvokeHandler {| Response := 1%positive; Request := dashboard |};
          InvokeErrorHandler defaultErrorHandler
            {| Response := 1%positive; Request := dashboard |} boom],
         set_sink (set_sink serving 1%positive
                     (answered recorder 200 "text/plain" (bytes_of "partial")))
           1%positive rw', Returned tt)
    /\ calls rw' = calls (answered recorder 200 "text/plain" (bytes_of "partial"))
                     ++ [CallWriteHeader 500;
                         CallHeaderSet "Content-Type" "text/plain";
                         CallWrite (bytes_of (Error boom)) err]
    /\ status_writes (calls rw')
         = S (status_writes (calls (answered recorder 200 "text/plain" (bytes_of "partial")))).
Proof.
  apply (Handler_error_after_answer hostHandlers half_done 1%positive dashboard
           serving
           (set_sink serving 1%positive
              (answered recorder 200 "text/plain" (bytes_of "partial")))
           boom (answered recorder 200 "text/plain" (bytes_of "partial")));
    vm_compute; reflexivity.
Defined.

(** A value that cannot be encoded fails [JSON] only after the status has
    gone out. Behind the adapter with the default error handler, the writer
    then receives WriteHeader(status) and the JSON content type from the
    helper, followed by WriteHeader(500), the plain-text content type and
    the encoder's message from the error handler; the header map ends with
    text/plain. *)
Theorem Handler_JSON_failure_writes_two_statuses
    (hostEH : nat -> Kit -> error -> host unit) (status : Z) (v : value)
    (w : ref) (r : http_Request) (st : World) (rw : http_ResponseWriter) :
  errorHandler st = defaultErrorHandler ->
  sinks st !! w = Some rw ->
  marshal v = None ->
  let kit := {| Response := w; Request := r |} in
  let e := mkError ("json: unsupported type: " +:+ unsupported_type v) in
  exists rw' err,
    Handler hostEH (fun kit => as_host (Kit.JSON kit status v)) w r st
      = ([InvokeHandler kit; InvokeErrorHandler defaultErrorHandler kit e],
         set_sink st w rw', Returned tt)
    /\ calls rw' = calls rw ++ [CallWriteHeader status;
                                CallHeaderSet "Content-Type" "application/json";
                                CallWriteHeader 500;
                                CallHeaderSet "Content-Type" "text/plain";
                                CallWrite (bytes_of (Error e)) err]
    /\ Header_Get (HeaderMap rw') "Content-Type" = "text/plain".
Proof.
  intros Hf Hw Hv kit e. eexists _, _. split; [|split].
  - erewrite (Handler_failed_default hostEH _ w r st _ e).
    + by rewrite set_sink_twice.
    + unfold as_host. cbv beta.
      by rewrite (JSON_unsupported {| Response := w; Request := r |} status v st rw Hw Hv).
    + exact Hf.
    + apply set_sink_lookup.
  - rewrite calls_answered. simpl. by rewrite <- app_assoc.
  - apply Header_Get_Set.
Qed.

Lemma Handler_JSON_failure_writes_two_statuses_chan :
  let kit := {| Response := 1%positive; Request := dashboard |} in
  let e := mkError ("json: unsupported type: "
                    +:+ unsupported_type (Object [("c", Unsupported "chan int")])) in
  exists rw' err,
    Handler hostHandlers
        (fun kit => as_host (Kit.JSON kit 200 (Object [("c", Unsupported "chan int")])))
        1%positive dashboard serving
      = ([InvokeHandler kit; InvokeErrorHandler defaultErrorHandler kit e],
         set_sink serving 1%positive rw', Returned tt)
    /\ calls rw' = calls recorder ++ [CallWriteHeader 200;
                                      CallHeaderSet "Content-Type" "application/json";
                                      CallWriteHeader 500;
                                      CallHeaderSet "Content-Type" "text/plain";
                                      CallWrite (bytes_of (Error e)) err]
    /\ Header_Get (HeaderMap rw') "Content-Type" = "text/plain".
Proof.
  apply (Handler_JSON_failure_writes_two_statuses hostHandlers 200
           (Object [("c", Unsupported "chan int")]) 1%positive dashboard
           serving recorder); reflexivity.
Defined.

(** A refused [Write] comes back from [Text] as its error and reaches the
    error handler unchanged. With the default error handler the same writer
    is then asked again: the calls are the three of the helper, the Write
    marked with the writer's error, and the three of the error handler. *)
Theorem Handler_reports_write_error
    (hostEH : nat -> Kit -> error -> host unit) (status : Z) (msg : string)
    (w : ref) (r : http_Request) (st : World) (rw : http_ResponseWriter)
    (e : error) :
  errorHandler st = defaultErrorHandler ->
  sinks st !! w = Some rw ->
  on_write rw (calls rw ++ [CallWriteHeader status;
                            CallHeaderSet "Content-Type" "text/plain"])
    (bytes_of msg) = Some e ->
  let kit := {| Response := w; Request := r |} in
  exists rw' err,
    Handler hostEH (fun kit => as_host (Kit.Text kit status msg)) w r st
      = ([InvokeHandler kit; InvokeErrorHandler defaultErrorHandler kit e],
         set_sink st w rw', Returned tt)
    /\ calls rw' = calls rw ++ [CallWriteHeader status;
                                CallHeaderSet "Content-Type" "text/plain";
                                CallWrite (bytes_of msg) (Some e);
                                CallWriteHeader 500;
                                CallHeaderSet "Content-Type" "text/plain";
                                CallWrite (bytes_of (Error e)) err].
Proof.
  intros Hf Hw He kit. eexists _, _. split.
  - erewrite (Handler_failed_default hostEH _ w r st _ e).
    + by rewrite set_sink_twice.
    + unfold as_host. cbv beta.
      rewrite Text_unfold, (Bytes_live {| Response := w; Request := r |} status _ st rw Hw).
      by rewrite He.
    + exact Hf.
    + apply set_sink_lookup.
  - rewrite calls_answered, calls_answered, He. by rewrite <- app_assoc.
Qed.

Lemma Handler_reports_write_error_hung_up :
  let kit := {| Response := 1%positive; Request := dashboard |} in
  exists rw' err,
    Handler hostHandlers (fun kit => as_host (Kit.Text kit 200 "hello"))
        1%positive dashboard serving_hung_up
      = ([InvokeHandler kit; InvokeErrorHandler defaultErrorHandler kit closed],
         set_sink serving_hung_up 1%positive rw', Returned tt)
    /\ calls rw' = calls hung_up ++ [CallWriteHeader 200;
                                     CallHeaderSet "Content-Type" "text/plain";
                                     CallWrite (bytes_of "hello") (Some closed);
                                     CallWriteHeader 500;
                                     CallHeaderSet "Content-Type" "text/plain";
                                     CallWrite (bytes_of (Error closed)) err].
Proof.
  apply (Handler_reports_write_error hostHandlers 200 "hello" 1%positive dashboard
           serving_hung_up hung_up closed); reflexivity.
Defined.

(** ** Probe results *)

(** A probe that fails is answered by the default error handler with status
    500 and the probe's error message, verbatim, as plain text on a live
    writer; the wrapped handler is not invoked. *)
Theorem WithAuthentication_probe_error_default_answer
    (hostEH : nat -> Kit -> error -> host unit) (fuel : nat)
    (config : AuthenticationConfig) (strict : bool) (next : http_Handler)
    (w : ref) (r : http_Request) (st st' : World) (auth : Auth) (e : error)
    (rw : http_ResponseWriter) :
  AuthFunc config w r st = (st', Returned (auth, Some e)) ->
  errorHandler st' = defaultErrorHandler ->
  sinks st' !! w = Some rw ->
  exists t rw' err,
    WithAuthentication hostEH fuel config strict next w r st
      = (t, set_sink st' w rw', Returned tt)
    /\ next_calls t = []
    /\ calls rw' = calls rw ++ [CallWriteHeader 500;
                                CallHeaderSet "Content-Type" "text/plain";
                                CallWrite (bytes_of (Error e)) err]
    /\ (err = None -> Body (calls rw') = Body (calls rw) ++ bytes_of (Error e)).
Proof.
  intros Hp Hf Hw. eexists _, _, _. split; [|split; [|split]].
  - rewrite (WithAuthentication_probe_failed hostEH config next w r fuel strict
               st st' auth e Hp) by (rewrite Hf; discriminate).
    rewrite Hf. unfold as_host.
    by rewrite (default_errorHandler_live hostEH {| Response := w; Request := r |} e st' rw Hw).
  - reflexivity.
  - apply calls_answered.
  - apply Body_answered.
Qed.

Lemma WithAuthentication_probe_error_default_answer_boom :
  exists t rw' err,
    WithAuthentication hostHandlers 3 (to_login broken_probe) false whoami
        1%positive dashboard serving
      = (t, set_sink serving 1%positive rw', Returned tt)
    /\ next_calls t = []
    /\ calls rw' = calls recorder ++ [CallWriteHeader 500;
                                      CallHeaderSet "Content-Type" "text/plain";
                                      CallWrite (bytes_of (Error boom)) err]
    /\ (err = None -> Body (calls rw') = Body (calls recorder) ++ bytes_of (Error boom)).
Proof.
  apply (WithAuthentication_probe_error_default_answer hostHandlers 3
           (to_login broken_probe) false whoami 1%positive dashboard
           serving serving None boom recorder); reflexivity.
Defined.

(** A probe that returns a nil result without an error. In strict mode the
    middleware panics on [auth.Check()], right after the probe. Otherwise it
    stores the nil under [AuthKey{}] and delegates; the nil hides whatever an
    outer layer had stored, and the accessor of the wrapped handler logs its
    warning and returns [DefaultAuth{}]. *)
Theorem WithAuthentication_nil_result
    (hostEH : nat -> Kit -> error -> host unit) (fuel : nat)
    (config : AuthenticationConfig) (next : http_Handler)
    (w : ref) (r : http_Request) (st st' : World) :
  AuthFunc config w r st = (st', Returned (None, None)) ->
  let r' := WithContext r (WithValue (ctx r) AuthKey AnyNil) in
  WithAuthentication hostEH fuel config true next w r st
    = ([InvokeAuthFunc w r], st', Panicked "nil pointer dereference")
  /\ WithAuthentication hostEH fuel config false next w r st
       = ([InvokeAuthFunc w r; InvokeNext w r'], fst (next w r' st'), snd (next w r' st'))
  /\ (forall w' stx,
        Kit.Auth {| Response := w'; Request := r' |} stx
          = ([], {| errorHandler := errorHandler stx;
                    sinks := sinks stx;
                    warnings := warnings stx ++ ["kit authentication not set"] |},
             Returned (Some DefaultAuth))).
Proof.
  intros Hp r'. split; [|split].
  - unfold WithAuthentication, bind, invoke. by rewrite Hp.
  - unfold WithAuthentication, bind, invoke. rewrite Hp. simpl.
    fold r'. by destruct (next w r' st').
  - intros w' stx. apply Auth_missing. intros a. simpl.
    destruct (decide (AuthKey = AuthKey)); [discriminate|done].
Qed.

Lemma WithAuthentication_nil_result_dashboard :
  let r' := WithContext dashboard (WithValue (ctx dashboard) AuthKey AnyNil) in
  WithAuthentication hostHandlers 3 (to_login (probe None)) true whoami
      1%positive dashboard serving
    = ([InvokeAuthFunc 1%positive dashboard], serving, Panicked "nil pointer dereference")
  /\ WithAuthentication hostHandlers 3 (to_login (probe None)) false whoami
         1%positive dashboard serving
       = ([InvokeAuthFunc 1%positive dashboard; InvokeNext 1%positive r'],
          fst (whoami 1%positive r' serving), snd (whoami 1%positive r' serving))
  /\ (forall w' stx,
        Kit.Auth {| Response := w'; Request := r' |} stx
          = ([], {| errorHandler := errorHandler stx;
                    sinks := sinks stx;
                    warnings := warnings stx ++ ["kit authentication not set"] |},
             Returned (Some DefaultAuth))).
Proof.
  apply (WithAuthentication_nil_result hostHandlers 3 (to_login (probe None)) whoami
           1%positive dashboard serving serving).
  reflexivity.
Defined.

(** ** Layers of context *)

Lemma Value_skips_other_keys (hs c : Context) (k : ctxkey) :
  Forall (fun kv => fst kv <> k) hs -> Value (hs ++ c) k = Value c k.
Proof.
  induction 1 as [|[k' v] hs Hk _ IH]; [reflexivity|].
  simpl in *. by destruct (decide (k' = k)).
Qed.

(** Values that the host stores in the request context under keys of its own,
    after the middleware ran, do not hide the authentication result: the
    accessor returns it, without a warning, through any number of such
    layers. *)
Theorem Auth_found_under_host_values (kit : Kit) (a : AuthValue)
    (hs c : Context) (st : World) :
  Forall (fun kv => fst kv <> AuthKey) hs ->
  ctx (Request kit) = hs ++ WithValue c AuthKey (AnyAuth a) ->
  Kit.Auth kit st = ([], st, Returned (Some a)).
Proof.
  intros Hhs Hctx. apply Auth_stored.
  rewrite Hctx, (Value_skips_other_keys _ _ _ Hhs). simpl.
  by destruct (decide (AuthKey = AuthKey)).
Qed.

Lemma Auth_found_under_host_values_two_layers :
  Kit.Auth {| Response := 1%positive;
              Request := {| Header := ∅; URL_Path := "/dashboard";
                            ctx := [(HostKey 1, AnyOther 5); (HostKey 2, AnyNil);
                                    (AuthKey, AnyAuth (HostAuth 2 true));
                                    (AuthKey, AnyAuth (HostAuth 1 false))] |} |}
      serving
    = ([], serving, Returned (Some (HostAuth 2 true))).
Proof.
  apply (Auth_found_under_host_values _ (HostAuth 2 true)
           [(HostKey 1, AnyOther 5); (HostKey 2, AnyNil)]
           [(AuthKey, AnyAuth (HostAuth 1 false))] serving);
    [|reflexivity].
  repeat constructor; discriminate.
Defined.

(** Two layers of the middleware: when both probes succeed and neither layer
    redirects, the wrapped handler runs once, after both probes, on a request
    in which the inner layer's result is the one the accessor returns. *)
Theorem nested_middleware_inner_result_wins
    (hostEH : nat -> Kit -> error -> host unit) (fuel : nat)
    (outer inner : AuthenticationConfig) (strict_outer strict_inner : bool)
    (next : http_Handler) (w : ref) (r : http_Request)
    (st st1 st2 : World) (a1 a2 : AuthValue) :
  let r1 := WithContext r (WithValue (ctx r) AuthKey (AnyAuth a1)) in
  let r2 := WithContext r1 (WithValue (ctx r1) AuthKey (AnyAuth a2)) in
  AuthFunc outer w r st = (st1, Returned (Some a1, None)) ->
  must_redirect outer strict_outer a1 r = false ->
  AuthFunc inner w r1 st1 = (st2, Returned (Some a2, None)) ->
  must_redirect inner strict_inner a2 r1 = false ->
  WithAuthentication hostEH fuel outer strict_outer
      (served (WithAuthentication hostEH fuel inner strict_inner next)) w r st
    = ([InvokeAuthFunc w r; InvokeNext w r1], fst (next w r2 st2), snd (next w r2 st2))
  /\ (forall w' stx,
        Kit.Auth {| Response := w'; Request := r2 |} stx = ([], stx, Returned (Some a2))).
Proof.
  intros r1 r2 Hp1 Hc1 Hp2 Hc2. split.
  - rewrite (WithAuthentication_delegates hostEH outer _ w r fuel strict_outer
               st st1 a1 Hp1 Hc1).
    fold r1. unfold served, as_host.
    rewrite (WithAuthentication_delegates hostEH inner next w r1 fuel strict_inner
               st1 st2 a2 Hp2 Hc2).
    reflexivity.
  - intros w' stx. apply Auth_stored. simpl.
    by destruct (decide (AuthKey = AuthKey)).
Qed.

Lemma nested_middleware_inner_result_wins_guest_then_member :
  let r1 := WithContext dashboard (WithValue (ctx dashboard) AuthKey (AnyAuth (HostAuth 1 false))) in
  let r2 := WithContext r1 (WithValue (ctx r1) AuthKey (AnyAuth (HostAuth 2 true))) in
  WithAuthentication hostHandlers 3 (to_login (probe guest)) false
      (served (WithAuthentication hostHandlers 3 (to_login (probe member)) true whoami))
      1%positive dashboard serving
    = ([InvokeAuthFunc 1%positive dashboard; InvokeNext 1%positive r1],
       fst (whoami 1%positive r2 serving), snd (whoami 1%positive r2 serving))
  /\ (forall w' stx,
        Kit.Auth {| Response := w'; Request := r2 |} stx
          = ([], stx, Returned (Some (HostAuth 2 true)))).
Proof.
  apply (nested_middleware_inner_result_wins hostHandlers 3
           (to_login (probe guest)) (to_login (probe member)) false true whoami
           1%positive dashboard serving serving serving
           (HostAuth 1 false) (HostAuth 2 true)); reflexivity.
Defined.

(** ** Render *)

(** A page that renders a component, behind the middleware. When the probe
    succeeds and the middleware does not redirect, the component runs on the
    writer of the request and on a context in which [AuthKey{}] holds the
    probe's result. [Render] writes nothing of its own, no status and no
    content type: if the component returns nil the world is as the component
    left it; if it returns an error, a registered error handler is invoked on
    that world with that error. *)
Theorem Render_behind_middleware
    (hostEH : nat -> Kit -> error -> host unit) (fuel : nat)
    (config : AuthenticationConfig) (strict : bool) (c : templ_Component)
    (w : ref) (r : http_Request) (st st' st'' : World) (a : AuthValue) :
  let ctx' := WithValue (ctx r) AuthKey (AnyAuth a) in
  let r' := WithContext r ctx' in
  let page := served (Handler hostEH (fun kit => as_host (Kit.Render kit c))) in
  AuthFunc config w r st = (st', Returned (Some a, None)) ->
  must_redirect config strict a r = false ->
  Value ctx' AuthKey = AnyAuth a
  /\ (c ctx' w st' = (st'', Returned None) ->
      WithAuthentication hostEH fuel config strict page w r st
        = ([InvokeAuthFunc w r; InvokeNext w r'], st'', Returned tt))
  /\ (forall e,
        c ctx' w st' = (st'', Returned (Some e)) ->
        errorHandler st'' <> nilFunc ->
        WithAuthentication hostEH fuel config strict page w r st
          = ([InvokeAuthFunc w r; InvokeNext w r'],
             fst (as_host (call_ErrorHandlerFunc hostEH (errorHandler st'')
                             {| Response := w; Request := r' |} e) st''),
             snd (as_host (call_ErrorHandlerFunc hostEH (errorHandler st'')
                             {| Response := w; Request := r' |} e) st''))).
Proof.
  intros ctx' r' page Hp Hc. split; [|split].
  - simpl. by destruct (decide (AuthKey = AuthKey)).
  - intros Hr.
    rewrite (WithAuthentication_delegates hostEH config page w r fuel strict
               st st' a Hp Hc).
    fold ctx' r'. unfold page, served, as_host.
    rewrite (Handler_succeeded hostEH _ w r' st' st''); [reflexivity|].
    unfold Kit.Render. simpl. fold ctx'. by rewrite Hr.
  - intros e Hr Hf.
    rewrite (WithAuthentication_delegates hostEH config page w r fuel strict
               st st' a Hp Hc).
    fold ctx' r'. unfold page, served. unfold as_host at 1 3.
    rewrite (Handler_failed hostEH _ w r' st' st'' e); [reflexivity| |exact Hf].
    unfold as_host, Kit.Render. simpl. fold ctx'. by rewrite Hr.
Qed.

Lemma Render_behind_middleware_badge :
  let ctx' := WithValue (ctx dashboard) AuthKey (AnyAuth (HostAuth 2 true)) in
  let r' := WithContext dashboard ctx' in
  Value ctx' AuthKey = AnyAuth (HostAuth 2 true)
  /\ WithAuthentication hostHandlers 3 (to_login (probe member)) true
         (served (Handler hostHandlers (fun kit => as_host (Kit.Render kit badge))))
         1%positive dashboard serving
       = ([InvokeAuthFunc 1%positive dashboard; InvokeNext 1%positive r'],
          set_sink serving 1%positive
            {| HeaderMap := ∅;
               calls := [CallWrite (bytes_of "<b>member</b>") None];
               on_write := on_write recorder |},
          Returned tt).
Proof.
  intros ctx' r'.
  destruct (Render_behind_middleware hostHandlers 3 (to_login (probe member)) true
              badge 1%positive dashboard serving serving
              (set_sink serving 1%positive
                 {| HeaderMap := ∅;
                    calls := [CallWrite (bytes_of "<b>member</b>") None];
                    on_write := on_write recorder |})
              (HostAuth 2 true) eq_refl eq_refl) as (H1 & H2 & _).
  split; [exact H1|]. apply H2. vm_compute; reflexivity.
Defined.

(** ** Redirect, in full *)

(** Whatever the request, the status asked for and the budget, a call of
    [Redirect] has one of three outcomes: it is still recursing, with
    nothing written; it panics on a nil writer, with nothing written; or it
    returns nil after setting HX-Redirect and writing 303. The [status]
    argument never reaches the writer, and no Location header is ever set. *)
Theorem Redirect_outcomes (fuel : nat) (kit : Kit) (status : Z) (url : string)
    (st : World) :
  (forall status',
     Kit.Redirect fuel kit status' url st = Kit.Redirect fuel kit status url st)
  /\ (Kit.Redirect fuel kit status url st = ([], st, Exhausted)
      \/ Kit.Redirect fuel kit status url st
           = ([], st, Panicked "nil pointer dereference")
      \/ exists rw,
           sinks st !! Response kit = Some rw
           /\ Kit.Redirect fuel kit status url st
                = ([], set_sink st (Response kit)
                         {| HeaderMap := Header_Set (HeaderMap rw) "HX-Redirect" url;
                            calls := calls rw ++ [CallHeaderSet "HX-Redirect" url;
                                                  CallWriteHeader 303];
                            on_write := on_write rw |},
                   Returned None)).
Proof.
  split.
  - intros status'.
    destruct (Header_Get (Header (Request kit)) "HX-Request") as [|c s] eqn:Hx.
    + by rewrite !Redirect_plain_exhausts.
    + destruct fuel as [|fuel]; [reflexivity|]. simpl. by rewrite Hx.
  - destruct (Header_Get (Header (Request kit)) "HX-Request") as [|c s] eqn:Hx.
    + left. by apply Redirect_plain_exhausts.
    + destruct fuel as [|fuel]; [by left|]. right.
      destruct (sinks st !! Response kit) as [rw|] eqn:Hw.
      * right. exists rw. split; [done|].
        apply Redirect_htmx; [by rewrite Hx|done].
      * left. simpl. rewrite Hx. simpl.
        unfold bind, Header_Set_on. by rewrite (on_sink_nil _ _ _ Hw).
Qed.

(** ** Registering an error handler *)

(** After [UseErrorHandler(f)] followed by [UseErrorHandler(g)], for a
    function [g] of the host, it is [g] that runs and [f] that does not: a
    failing handler behind the adapter and a failing probe in the middleware
    both end as [g] applied to the kit, the error and the world, which
    differs from the world before the registrations in the variable
    [errorHandler] only. The adapter reads the variable when the wrapped
    handler has returned: a handler that registers [g] itself and then fails
    is already reported to [g]. *)
Theorem UseErrorHandler_takes_effect
    (hostEH : nat -> Kit -> error -> host unit) (f : ErrorHandlerFunc) (id : nat)
    (fuel : nat) (config : AuthenticationConfig) (strict : bool) (next : http_Handler)
    (w : ref) (r : http_Request) (e : error) (auth : Auth) (st : World) :
  let st1 := snd (fst (UseErrorHandler f st)) in
  let st2 := snd (fst (UseErrorHandler (hostFunc id) st1)) in
  let kit := {| Response := w; Request := r |} in
  st2 = {| errorHandler := hostFunc id; sinks := sinks st; warnings := warnings st |}
  /\ Handler hostEH (fun _ st => (st, Returned (Some e))) w r st2
       = ([InvokeHandler kit; InvokeErrorHandler (hostFunc id) kit e],
          fst (hostEH id kit e st2), snd (hostEH id kit e st2))
  /\ Handler hostEH
         (fun _ => as_host (UseErrorHandler (hostFunc id) ;; ret (Some e))) w r st1
       = ([InvokeHandler kit; InvokeErrorHandler (hostFunc id) kit e],
          fst (hostEH id kit e st2), snd (hostEH id kit e st2))
  /\ (AuthFunc config w r st2 = (st2, Returned (auth, Some e)) ->
      WithAuthentication hostEH fuel config strict next w r st2
        = ([InvokeAuthFunc w r; InvokeErrorHandler (hostFunc id) kit e],
           fst (hostEH id kit e st2), snd (hostEH id kit e st2))).
Proof.
  intros st1 st2 kit. split; [reflexivity|]. split; [|split].
  - by apply Handler_failed_host.
  - by apply Handler_failed_host.
  - intros Hp.
    by apply (WithAuthentication_probe_failed_host hostEH config next w r fuel strict
                st2 st2 auth e id Hp).
Qed.

Lemma UseErrorHandler_takes_effect_host :
  let st1 := snd (fst (UseErrorHandler (hostFunc 1) serving)) in
  let st2 := snd (fst (UseErrorHandler (hostFunc 0) st1)) in
  let kit := {| Response := 1%positive; Request := dashboard |} in
  Handler gateways failing 1%positive dashboard st2
    = ([InvokeHandler kit; InvokeErrorHandler (hostFunc 0) kit boom],
       set_sink st2 1%positive (answered recorder 502 "text/plain" (bytes_of "upstream")),
       Returned tt)
  /\ Handler gateways
         (fun _ => as_host (UseErrorHandler (hostFunc 0) ;; ret (Some boom)))
         1%positive dashboard st1
       = ([InvokeHandler kit; InvokeErrorHandler (hostFunc 0) kit boom],
          set_sink st2 1%positive (answered recorder 502 "text/plain" (bytes_of "upstream")),
          Returned tt)
  /\ WithAuthentication gateways 3 (to_login broken_probe) false whoami
         1%positive dashboard st2
       = ([InvokeAuthFunc 1%positive dashboard; InvokeErrorHandler (hostFunc 0) kit boom],
          set_sink st2 1%positive (answered recorder 502 "text/plain" (bytes_of "upstream")),
          Returned tt).
Proof.
  intros st1 st2 kit.
  destruct (UseErrorHandler_takes_effect gateways (hostFunc 1) 0 3
              (to_login broken_probe) false whoami 1%positive dashboard boom None
              serving) as (_ & H1 & H2 & H3).
  split; [|split].
  - etransitivity; [exact H1|]. vm_compute; reflexivity.
  - etransitivity; [exact H2|]. vm_compute; reflexivity.
  - etransitivity; [exact (H3 eq_refl)|]. vm_compute; reflexivity.
Defined.

(** ** The environment flags *)

(** [IsDevelopment] and [IsProduction] are never both true; each holds
    exactly when APP_ENV is set to its word, letter for letter; with APP_ENV
    unset both are false and [Env] is empty; and no other variable of the
    environment matters. *)
Theorem environment_flags (environ : gmap string string) :
  IsDevelopment environ && IsProduction environ = false
  /\ (IsDevelopment environ = true <-> environ !! "APP_ENV" = Some "development")
  /\ (IsProduction environ = true <-> environ !! "APP_ENV" = Some "production")
  /\ (environ !! "APP_ENV" = None ->
      IsDevelopment environ = false /\ IsProduction environ = false /\ Env environ = "")
  /\ (forall k v, k <> "APP_ENV" ->
        Env (<[k := v]> environ) = Env environ
        /\ IsDevelopment (<[k := v]> environ) = IsDevelopment environ
        /\ IsProduction (<[k := v]> environ) = IsProduction environ).
Proof.
  unfold IsDevelopment, IsProduction, Env, Getenv.
  split; [|split; [|split; [|split]]].
  - destruct (String.eqb_spec (default "" (environ !! "APP_ENV")) "development") as [->|];
      [reflexivity|reflexivity].
  - rewrite String.eqb_eq. destruct (environ !! "APP_ENV") as [x|]; simpl.
    + split; [by intros ->|by intros [= ->]].
    + split; discriminate.
  - rewrite String.eqb_eq. destruct (environ !! "APP_ENV") as [x|]; simpl.
    + split; [by intros ->|by intros [= ->]].
    + split; discriminate.
  - by intros ->.
  - intros k v Hk. by rewrite lookup_insert_ne.
Qed.

Lemma environment_flags_examples :
  (IsDevelopment ∅ = false /\ IsProduction ∅ = false /\ Env ∅ = "")
  /\ (Env (<["PORT" := "8080"]> {[ "APP_ENV" := "Development" ]}) = "Development"
      /\ IsDevelopment (<["PORT" := "8080"]> {[ "APP_ENV" := "Development" ]})
           = IsDevelopment {[ "APP_ENV" := "Development" ]}
      /\ IsProduction (<["PORT" := "8080"]> {[ "APP_ENV" := "Development" ]})
           = IsProduction {[ "APP_ENV" := "Development" ]}).
Proof.
  split.
  - apply (proj1 (proj2 (proj2 (proj2 (environment_flags ∅))))). reflexivity.
  - destruct (proj2 (proj2 (proj2 (proj2 (environment_flags
                {[ "APP_ENV" := "Development" ]})))) "PORT" "8080") as (H1 & H2 & H3);
      [discriminate|].
    split; [|split]; [|exact H2|exact H3].
    rewrite H1. reflexivity.
Defined.
